(** * SBIR Awards Dashboard: the fetcher and the filter/aggregation pipeline

    A shallow embedding of [streamlit_app.py].  The script is a straight
    line: it asks the awards API for the awards of one company
    ([fetch_sbir_awards], memoised by [st.cache_data]), builds a pandas
    [DataFrame], coerces [award_amount] to numbers, applies the two
    sidebar filters, and renders two metrics, three grouped sums and a
    detail table.

    What the embedding keeps and what it leaves out:
    - Python exceptions are explicit ([Raises]); [try]/[except] is
      [try_except]; the Streamlit calls append to the page of the
      current run; outbound requests are logged on the wire.
    - The libraries are modelled by what the script observes of them.
      [requests.get] either raises or hands back a response, and
      [response.json()] either raises or yields a decoded value.
    - The reading of a string as a number (pandas' own parser) is a
      parameter of the development.  Line 52 decides the type of the
      amount column as pandas does: [int64] when every entry is an
      integer, [float64] as soon as one entry is NaN or a float, the
      integers then being rounded to binary64.
    - Sums are followed where machine arithmetic is exact, whatever
      the order of the additions: whole amounts whose absolute values
      add up to at most [2^53] in a [float64] column, to less than
      [2^63] in an [int64] column.  A run whose amount column is beyond
      that, or holds a fraction, ends as [OutsideModel] at line 52.
    - pandas is modelled on frames built from a list of flat JSON
      objects, whose values are strings, numbers, booleans or null,
      the integers within [int64].  Anything else handed to
      [pd.DataFrame] ends the run as [OutsideModel].
    - The plotly and Streamlit calls are taken to succeed: a chart or a
      table is an element appended to the page. *)

From stdpp Require Import gmap strings list fin_maps.
From Stdlib Require Import Floats.SpecFloat.

Set Warnings "-register-all".

Open Scope Z_scope.
Open Scope string_scope.
Open Scope list_scope.

(** ** Decoded JSON *)

(** What [response.json()] yields: [None], [bool], [int], [float],
    [str], [list] or [dict] with string keys.  [JNum] is a Python
    [int]; a [float] is a binary64 value, in the sign, mantissa and
    exponent form of the Standard Library, one form for each value. *)
Inductive json : Type :=
| JNull
| JBool (b : bool)
| JNum (z : Z)
| JStr (s : string)
| JList (items : list json)
| JDict (d : gmap string json)
| JFloat (f : spec_float).

(** [isinstance(data, list)] *)
Definition is_list (data : json) : bool :=
  match data with JList _ => true | _ => false end.

(** [isinstance(data, dict) and 'results' in data], with the value
    [data['results']] when the test holds. *)
Definition dict_results (data : json) : option json :=
  match data with JDict d => d !! "results" | _ => None end.

(** Python truthiness, as used by [if not data]. *)
Definition truthy (data : json) : bool :=
  match data with
  | JNull => false
  | JBool b => b
  | JNum z => negb (Z.eqb z 0)
  | JStr s => negb (String.eqb s "")
  | JList items => match items with [] => false | _ => true end
  | JDict d => negb (bool_decide (d = ∅))
  | JFloat f => match f with S754_zero _ => false | _ => true end
  end.

(** ** Cells, rows and frames *)

(** A cell of a frame: [None], a whole number, a string, a boolean or
    a float.  A key that a record lacks is a lookup that fails
    ([NaN]). *)
Inductive cell : Type :=
| Null
| Num (z : Z)
| Str (s : string)
| Bool (b : bool)
| Flt (f : spec_float).

#[global] Instance spec_float_eq_dec : EqDecision spec_float.
Proof. solve_decision. Defined.

#[global] Instance spec_float_countable : Countable spec_float.
Proof.
  refine (inj_countable'
    (λ f, match f with
          | S754_zero s => inl (inl s)
          | S754_infinity s => inl (inr s)
          | S754_nan => inr (inl ())
          | S754_finite s m e => inr (inr (s, m, e))
          end)
    (λ x, match x with
          | inl (inl s) => S754_zero s
          | inl (inr s) => S754_infinity s
          | inr (inl _) => S754_nan
          | inr (inr (s, m, e)) => S754_finite s m e
          end) _).
  by intros [].
Defined.

#[global] Instance cell_eq_dec : EqDecision cell.
Proof. solve_decision. Defined.

#[global] Instance cell_countable : Countable cell.
Proof.
  refine (inj_countable'
    (λ c, match c with
          | Null => inl (inl ())
          | Num z => inl (inr z)
          | Str s => inr (inl s)
          | Bool b => inr (inr (inl b))
          | Flt f => inr (inr (inr f))
          end)
    (λ x, match x with
          | inl (inl _) => Null
          | inl (inr z) => Num z
          | inr (inl s) => Str s
          | inr (inr (inl b)) => Bool b
          | inr (inr (inr f)) => Flt f
          end) _).
  by intros [].
Defined.

(** A frame: its column labels and its rows in index order.  A row maps
    a label to the cell it holds; a label of the frame that a row does
    not bind is [NaN] in that row. *)
Record DataFrame : Type := Frame {
  columns : gset string;
  rows : list (gmap string cell)
}.

(** A column taken out of a frame: one entry per row, [None] for NaN. *)
Abbreviation Series := (list (option cell)).

(** The result of [groupby(col)['award_amount'].sum().reset_index()]:
    one sum per distinct key.  The order of its rows is the renderer's
    concern. *)
Abbreviation Summary := (gmap cell Z).

(** ** What the run shows *)

Inductive figure : Type :=
| Choropleth (state_summary : Summary)
| Bar (agency_summary : Summary)
| Pie (phase_summary : Summary).

(** The value shown by [st.metric]: [Dollars z] stands for the text
    [f"${z:,.2f}"], [Count n] for the bare integer. *)
Inductive metric_value : Type :=
| Dollars (z : Z)
| Count (n : nat).

Inductive element : Type :=
| St_title (text : string)
| St_markdown (text : string)
| St_error (msg : string)
| St_warning (msg : string)
| St_metric (label : string) (value : metric_value)
| St_subheader (text : string)
| St_plotly_chart (fig : figure)
| St_dataframe (table : DataFrame).

(** ** Exceptions *)

Inductive exn : Type :=
| RequestException (why : string)
| JSONDecodeError (why : string)
| KeyError (labels : list string).

(** [str(e)], as interpolated into the message of [st.error]. *)
Definition exn_str (e : exn) : string :=
  match e with
  | RequestException why => why
  | JSONDecodeError why => why
  | KeyError labels => String.concat ", " labels
  end.

(** ** The HTTP exchange *)

(** A response, seen through its [json()] method: either the body does
    not decode and [json()] raises, or it decodes to a value. *)
Inductive response : Type :=
| Undecodable (body : string) (why : string)
| Decoded (data : json).

(** The network at the time of a run: what [requests.get] meets for a
    URL, a failure of the request itself or a response. *)
Definition network : Type := string → exn + response.

(** ** The world a run acts on *)

(** [cache] is the store of [st.cache_data] for [fetch_sbir_awards]:
    per argument, the value returned and the elements the call showed.
    [wire] logs every request issued, oldest first: its URL and what
    came back.  [page] holds the elements shown so far, in order. *)
Record world : Type := World {
  cache : gmap string (json * list element);
  wire : list (string * (exn + response));
  page : list element
}.

Definition set_wire (l : list (string * (exn + response))) (w : world) : world :=
  World (cache w) l (page w).
Definition set_page (p : list element) (w : world) : world :=
  World (cache w) (wire w) p.

Inductive outcome (A : Type) : Type :=
| Returns (a : A)
| Raises (e : exn)
| OutsideModel.

Arguments Returns {A} a.
Arguments Raises {A} e.
Arguments OutsideModel {A}.

(** A piece of the script: it reads and updates the world and returns,
    raises, or leaves the modelled fragment. *)
Definition prog (A : Type) : Type := world → outcome A * world.

#[global] Instance prog_ret : MRet prog := λ A a w, (Returns a, w).

#[global] Instance prog_bind : MBind prog := λ A B k m w,
  match m w with
  | (Returns a, w') => k a w'
  | (Raises e, w') => (Raises e, w')
  | (OutsideModel, w') => (OutsideModel, w')
  end.

Definition raise {A} (e : exn) : prog A := λ w, (Raises e, w).

Definition outside_model {A} : prog A := λ w, (OutsideModel, w).

(** [try: body  except Exception as e: handler e] *)
Definition try_except {A} (body : prog A) (handler : exn → prog A) : prog A :=
  λ w, match body w with
       | (Raises e, w') => handler e w'
       | r => r
       end.

Definition emit (el : element) : prog () :=
  λ w, (Returns (), set_page (page w ++ [el]) w).

Definition st_title (text : string) : prog () := emit (St_title text).
Definition st_markdown (text : string) : prog () := emit (St_markdown text).
Definition st_error (msg : string) : prog () := emit (St_error msg).
Definition st_warning (msg : string) : prog () := emit (St_warning msg).
Definition st_metric (label : string) (v : metric_value) : prog () :=
  emit (St_metric label v).
Definition st_subheader (text : string) : prog () := emit (St_subheader text).
Definition st_plotly_chart (fig : figure) : prog () := emit (St_plotly_chart fig).
Definition st_dataframe (t : DataFrame) : prog () :=
  emit (St_dataframe t).

(** ** The HTTP client *)

Definition requests_get (net : network) (url : string) : prog response :=
  λ w, let w' := set_wire (wire w ++ [(url, net url)]) w in
       match net url with
       | inl e => (Raises e, w')
       | inr r => (Returns r, w')
       end.

Definition response_json (r : response) : prog json :=
  match r with
  | Undecodable _ why => raise (JSONDecodeError why)
  | Decoded data => mret data
  end.

(** ** The fetcher *)

Definition awards_url (company_name : string) : string :=
  "https://api.www.sbir.gov/public/api/awards?firm=" +:+ company_name
    +:+ "&start=0&rows=1000".

(** The function as written, before the decorator is applied. *)
Definition fetch_sbir_awards (net : network) (company_name : string) : prog json :=
  let url := awards_url company_name in
  response ← requests_get net url;
  try_except
    (data ← response_json response;
     if is_list data then mret data
     else match dict_results data with
          | Some results => mret results
          | None => mret (JList [])
          end)
    (λ e, st_error ("Error parsing JSON: " +:+ exn_str e);; mret (JList [])).

(** [@st.cache_data]: on a hit the stored value is returned and the
    elements the original call showed are replayed, without running
    the function; on a miss the function runs, and its value and the
    elements it showed are stored if it returns.  A call that raises
    stores nothing. *)
Definition cache_data (f : string → prog json) (arg : string) : prog json :=
  λ w, match cache w !! arg with
       | Some (v, shown) => (Returns v, set_page (page w ++ shown) w)
       | None =>
           match f arg (set_page [] w) with
           | (Returns v, w') =>
               (Returns v,
                World (<[arg := (v, page w')]> (cache w')) (wire w')
                      (page w ++ page w'))
           | (o, w') => (o, set_page (page w ++ page w') w')
           end
       end.

Definition cached_fetch_sbir_awards (net : network) : string → prog json :=
  cache_data (fetch_sbir_awards net).

(** ** pandas, on the modelled fragment *)

Definition in_int64 (z : Z) : bool := ((- 2 ^ 63 <=? z) && (z <? 2 ^ 63))%Z.

(** The binary64 value nearest to an integer, ties to the even
    mantissa: the cast of an [int64] to [float64]. *)
Definition round_binary64 (z : Z) : Z :=
  let a := Z.abs z in
  if (a <=? 2 ^ 53)%Z then z
  else
    let k := Z.log2 a - 52 in
    let q := Z.shiftr a k in
    let r := Z.land a (Z.ones k) in
    let half := Z.shiftl 1 (k - 1) in
    let q' := if ((half <? r) || ((r =? half) && Z.odd q))%Z then q + 1 else q in
    Z.sgn z * Z.shiftl q' k.

(** The cell a scalar value becomes; a nested list or object, and an
    integer beyond [int64], are not in the fragment. *)
Definition cell_of_json (v : json) : option cell :=
  match v with
  | JNull => Some Null
  | JNum z => if in_int64 z then Some (Num z) else None
  | JStr s => Some (Str s)
  | JBool b => Some (Bool b)
  | JFloat f => Some (Flt f)
  | JList _ | JDict _ => None
  end.

(** One record of the list becomes one row; the record must be a flat
    object. *)
Definition row_of_json (item : json) : option (gmap string cell) :=
  match item with
  | JDict d =>
      if bool_decide (map_Forall (λ _ v, is_Some (cell_of_json v)) d)
      then Some (omap cell_of_json d)
      else None
  | _ => None
  end.

(** Whether pandas stores a column of the new frame as [float64]: it
    holds no string and no boolean, and not integers only.  The
    integers of such a column are rounded to binary64. *)
Definition is_text (o : option cell) : bool :=
  match o with Some (Str _) | Some (Bool _) => true | _ => false end.

Definition is_int (o : option cell) : bool :=
  match o with Some (Num _) => true | _ => false end.

Definition float_column (s : list (option cell)) : bool :=
  negb (existsb is_text s) && negb (forallb is_int s).

Definition store_cell (as_float : bool) (c : cell) : cell :=
  match c with
  | Num z => if as_float then Num (round_binary64 z) else c
  | _ => c
  end.

Definition store_columns (rs : list (gmap string cell)) : list (gmap string cell) :=
  (λ r : gmap string cell,
     map_imap
       (λ col c,
          Some (store_cell
                  (float_column ((λ r' : gmap string cell, r' !! col) <$> rs)) c))
       r) <$> rs.

(** The rows of the frame of a list of flat records. *)
Definition rows_of_json (items : list json) : option (list (gmap string cell)) :=
  store_columns <$> mapM row_of_json items.

(** [pd.DataFrame(data)] for a list of records: the columns are the
    union of the records' keys, the rows are the records in order.  A
    list that holds anything but flat records, and a value that is no
    list, are outside the fragment. *)
Definition pd_DataFrame (data : json) : prog DataFrame :=
  match data with
  | JList items =>
      match rows_of_json items with
      | Some rs => mret (Frame (⋃ (dom <$> rs)) rs)
      | None => outside_model
      end
  | _ => outside_model
  end.

(** [df[col]] *)
Definition getitem (df : DataFrame) (col : string) : prog Series :=
  if decide (col ∈ columns df)
  then mret ((λ r, r !! col) <$> rows df)
  else raise (KeyError [col]).

(** [df[col] = s], the series having one entry per row of the frame. *)
Definition setitem (df : DataFrame) (col : string) (s : Series) : DataFrame :=
  Frame ({[col]} ∪ columns df)
        (zip_with (λ r v, partial_alter (λ _, v) col r) (rows df) s).

(** [series.isin(values)] for a list of strings: only a string cell can
    equal one of them. *)
Definition isin_cell (values : list string) (o : option cell) : bool :=
  match o with
  | Some (Str x) => bool_decide (x ∈ values)
  | _ => false
  end.

Definition isin (s : Series) (values : list string) : list bool :=
  isin_cell values <$> s.

Fixpoint select {A} (l : list A) (mask : list bool) : list A :=
  match l, mask with
  | x :: l', b :: mask' =>
      if b then x :: select l' mask' else select l' mask'
  | _, _ => []
  end.

(** [df[mask]] *)
Definition boolean_index (df : DataFrame) (mask : list bool) : DataFrame :=
  Frame (columns df) (select (rows df) mask).

(** [series.sum()] on the amount column: NaN is skipped, and the sum of
    nothing is zero.  The amounts of a frame that has left line 52 are
    within the range where the [int64] and the [float64] sum are the
    integer sum, in whatever order numpy adds ([normalize_amounts]
    below); so are those of any selection of its rows. *)
Definition series_sum (s : Series) : Z :=
  foldl (λ acc o, match o with Some (Num z) => acc + z | _ => acc end) 0 s.

(** The integer a float is, when it is one. *)
Definition whole (f : spec_float) : option Z :=
  match f with
  | S754_zero _ => Some 0
  | S754_finite s m e =>
      let a := if (0 <=? e)%Z
               then Some (Z.shiftl (Z.pos m) e)
               else if (Z.land (Z.pos m) (Z.ones (- e)) =? 0)%Z
                    then Some (Z.shiftr (Z.pos m) (- e))
                    else None in
      (if s then Z.opp else id) <$> a
  | S754_infinity _ | S754_nan => None
  end.

(** The key a row is grouped under; rows whose key is null or NaN are
    left out of every group ([dropna=True], the default).  Keys are
    told apart as Python tells them apart: [True], [1] and [1.0] are
    one key, which is the integer here. *)
Definition group_key (o : option cell) : option cell :=
  match o with
  | Some Null | None => None
  | Some (Bool b) => Some (Num (if b then 1 else 0))
  | Some (Flt f) =>
      match f with
      | S754_nan => None
      | _ => Some (match whole f with Some z => Num z | None => Flt f end)
      end
  | Some k => Some k
  end.

(** One more row for [groupby(col)['award_amount'].sum()]; the sums are
    within the exact range, as for [series_sum]. *)
Definition group_add (col : string) (acc : Summary) (r : gmap string cell) : Summary :=
  match group_key (r !! col) with
  | Some k =>
      partial_alter
        (λ old, Some (match r !! "award_amount" with
                      | Some (Num z) => default 0 old + z
                      | _ => default 0 old
                      end)) k acc
  | None => acc
  end.

(** [df.groupby(col)['award_amount'].sum().reset_index()] *)
Definition groupby_sum (df : DataFrame) (col : string) : prog Summary :=
  if decide (col ∈ columns df) then
    if decide ("award_amount" ∈ columns df)
    then mret (foldl (group_add col) ∅ (rows df))
    else raise (KeyError ["award_amount"])
  else raise (KeyError [col]).

(** [df[[c1, ..., cn]]]: every label must be a column. *)
Definition getitems (df : DataFrame) (cols : list string) : prog DataFrame :=
  match filter (λ c, c ∉ columns df) cols with
  | [] => mret (Frame (list_to_set cols)
                      (filter (λ kv, kv.1 ∈ cols) <$> rows df))
  | missing => raise (KeyError missing)
  end.

Definition detail_columns : list string :=
  ["agency"; "phase"; "program"; "award_amount"; "award_year"; "city"; "state"].

(** What [pd.to_numeric] finds in one entry: nothing numeric, an
    integer, or a float. *)
Inductive reading : Type :=
| NotNumeric
| Integer (z : Z)
| Real (f : spec_float).

(** The entry of an [int64] column. *)
Definition as_int64 (r : reading) : option Z :=
  match r with
  | Integer z => if in_int64 z then Some z else None
  | _ => None
  end.

(** The entry of a [float64] column: [Some None] is NaN, [Some (Some z)]
    the whole number [z]; [None] for a value that is not followed: a
    fraction, an infinity, an integer beyond [int64]. *)
Definition as_float64 (r : reading) : option (option Z) :=
  match r with
  | NotNumeric => Some None
  | Integer z => if in_int64 z then Some (Some (round_binary64 z)) else None
  | Real S754_nan => Some None
  | Real f => Some <$> whole f
  end.

(** The sum of the absolute values of a column, NaN apart. *)
Definition abs_sum (l : list (option Z)) : Z :=
  foldr (λ o acc, Z.abs (default 0 o) + acc) 0 l.

(** Machine addition of whole numbers: [int64] wraps around, [float64]
    rounds the result; and the sums they give when the numbers are
    added one after the other.  Within the exact range neither wraps
    nor rounds, in whatever order the numbers come
    ([machine_sums_exact] below). *)
Definition wrap_int64 (z : Z) : Z := (z + 2 ^ 63) `mod` 2 ^ 64 - 2 ^ 63.

Definition int64_sum (l : list Z) : Z :=
  foldl (λ acc z, wrap_int64 (acc + z)) 0 l.

Definition float64_sum (l : list Z) : Z :=
  foldl (λ acc z, round_binary64 (acc + z)) 0 l.

Section Dashboard.

(** pandas' reading of a string as a number; [NotNumeric] when the text
    does not hold one. *)
Variable str_to_number : string → reading.

(** What [pd.to_numeric(..., errors='coerce')] finds in one cell;
    [None] for a boolean, which is not followed. *)
Definition to_numeric_cell (o : option cell) : option reading :=
  match o with
  | Some (Num z) => Some (Integer z)
  | Some (Flt f) => Some (Real f)
  | Some (Str s) => Some (str_to_number s)
  | Some Null | None => Some NotNumeric
  | Some (Bool _) => None
  end.

(** The entries of the column [pd.to_numeric] returns.  The column is
    [int64] when every entry is an integer and [float64] otherwise;
    [None] when the column is outside the range where its sums are
    exact. *)
Definition to_numeric_values (s : Series) : option (list (option Z)) :=
  rs ← mapM to_numeric_cell s;
  match mapM as_int64 rs with
  | Some zs =>
      if (abs_sum (Some <$> zs) <? 2 ^ 63)%Z then Some (Some <$> zs) else None
  | None =>
      vs ← mapM as_float64 rs;
      if (abs_sum vs <=? 2 ^ 53)%Z then Some vs else None
  end.

(** [pd.to_numeric(s, errors='coerce')] *)
Definition pd_to_numeric (s : Series) : prog Series :=
  match to_numeric_values s with
  | Some vs => mret ((λ v : option Z, Num <$> v) <$> vs)
  | None => outside_model
  end.

(** Line 52: [df['award_amount'] = pd.to_numeric(df['award_amount'],
    errors='coerce')] *)
Definition normalize_amounts (df : DataFrame) : prog DataFrame :=
  amounts ← getitem df "award_amount";
  amounts ← pd_to_numeric amounts;
  mret (setitem df "award_amount" amounts).

(** Lines 55 to 58: the two optional filters, one after the other. *)
Definition apply_filters (df : DataFrame) (agency_filter phase_filter : list string)
  : prog DataFrame :=
  df ← match agency_filter with
       | [] => mret df
       | _ => s ← getitem df "agency";
              mret (boolean_index df (isin s agency_filter))
       end;
  match phase_filter with
  | [] => mret df
  | _ => s ← getitem df "phase";
         mret (boolean_index df (isin s phase_filter))
  end.

(** Lines 51 to 58: build the frame, coerce the amounts, filter. *)
Definition prepare (data : json) (agency_filter phase_filter : list string)
  : prog DataFrame :=
  df ← pd_DataFrame data;
  df ← normalize_amounts df;
  apply_filters df agency_filter phase_filter.

End Dashboard.

(** [df['award_amount'].sum()] *)
Definition total_awarded (df : DataFrame) : prog Z :=
  amounts ← getitem df "award_amount";
  mret (series_sum amounts).

(** [len(df)] *)
Definition total_projects (df : DataFrame) : nat := length (rows df).

(** Lines 63 to 106: metrics, the three charts, the detail table. *)
Definition render (df : DataFrame) : prog () :=
  total ← total_awarded df;
  st_metric "Total Awarded ($)" (Dollars total);;
  st_metric "Total Funded Projects" (Count (total_projects df));;
  st_subheader "Award Distribution by State";;
  (if decide ("state" ∈ columns df)
   then state_summary ← groupby_sum df "state";
        st_plotly_chart (Choropleth state_summary)
   else mret ());;
  st_subheader "Award Breakdown by Agency";;
  agency_summary ← groupby_sum df "agency";
  st_plotly_chart (Bar agency_summary);;
  st_subheader "Award Breakdown by Phase";;
  phase_summary ← groupby_sum df "phase";
  st_plotly_chart (Pie phase_summary);;
  st_subheader "Award Details";;
  details ← getitems df detail_columns;
  st_dataframe details.

Section Script.

Variable str_to_number : string → reading.

(** The [else] branch of the script: lines 51 to 106. *)
Definition dashboard (data : json) (agency_filter phase_filter : list string)
  : prog () :=
  df ← prepare str_to_number data agency_filter phase_filter;
  render df.

(** One run of the script, from the sidebar inputs. *)
Definition script (net : network) (company_name : string)
    (agency_filter phase_filter : list string) : prog () :=
  st_title "SBIR Awards Dashboard";;
  st_markdown "Analyze SBIR grant awards across agencies and geographies.";;
  data ← cached_fetch_sbir_awards net company_name;
  if negb (truthy data)
  then st_warning "No data found. Please check the company name or try a different query."
  else dashboard data agency_filter phase_filter.

End Script.

(** A reading of plain decimal integers, with an optional sign, used to
    run the pipeline on examples.  It takes every other text for not
    numeric, as pandas does for the one such text of the examples,
    [N/A]. *)
Fixpoint read_digits (acc : Z) (s : string) : option Z :=
  match s with
  | EmptyString => Some acc
  | String a s' =>
      let n := Ascii.nat_of_ascii a in
      if (48 <=? n)%nat && (n <=? 57)%nat
      then read_digits (10 * acc + Z.of_nat (n - 48)) s'
      else None
  end.

Definition read_decimal (s : string) : reading :=
  let digits := λ s, match s with
                     | EmptyString => None
                     | _ => read_digits 0 s
                     end in
  let z := match s with
           | String a s' =>
               if (Ascii.nat_of_ascii a =? 45)%nat
               then Z.opp <$> digits s'
               else digits s
           | EmptyString => None
           end in
  match z with
  | Some z => Integer z
  | None => NotNumeric
  end.

(** The world of a process that has just started: nothing memoised,
    nothing requested, nothing shown. *)
Definition fresh : world := World ∅ [] [].

(** ** Notions used to state the properties *)

(** A sequence of calls to the memoised fetcher, each under the network
    of its time; only the world they leave matters. *)
Definition run_calls (calls : list (network * string)) (w : world) : world :=
  foldl (λ w c, (cached_fetch_sbir_awards c.1 c.2 w).2) w calls.

(** How many requests for [url] on the wire came back with a response. *)
Definition answered (url : string) (l : list (string * (exn + response))) : nat :=
  length (filter (λ x, x.1 = url ∧ is_Some (match x.2 with
                                             | inr r => Some r
                                             | inl _ => None
                                             end)) l).

(** How many requests for [url] were issued at all. *)
Definition issued (url : string) (l : list (string * (exn + response))) : nat :=
  length (filter (λ x, x.1 = url) l).

(** An element that reports an error to the user. *)
Definition is_error (el : element) : Prop :=
  match el with St_error _ => True | _ => False end.

#[global] Instance is_error_dec el : Decision (is_error el).
Proof. destruct el; simpl; apply _. Defined.

(** The memo agrees with the wire: a name with no entry has had no
    answered request, a name with an entry at most one. *)
Definition memo_consistent (w : world) : Prop :=
  ∀ name,
    match cache w !! name with
    | None => answered (awards_url name) (wire w) = 0%nat
    | Some _ => (answered (awards_url name) (wire w) ≤ 1)%nat
    end.

(** The record's value for [col] is one of the allowed strings. *)
Definition field_in (r : gmap string cell) (col : string) (allowed : list string) : Prop :=
  match r !! col with
  | Some (Str x) => x ∈ allowed
  | _ => False
  end.

#[global] Instance field_in_dec r col allowed : Decision (field_in r col allowed).
Proof. unfold field_in. destruct (r !! col) as [[]|]; apply _. Defined.

(** The filter of the specification: an empty set of agencies (of
    phases) restricts nothing. *)
Definition keeps (agencies phases : list string) (r : gmap string cell) : Prop :=
  (agencies = [] ∨ field_in r "agency" agencies)
  ∧ (phases = [] ∨ field_in r "phase" phases).

#[global] Instance keeps_dec agencies phases r : Decision (keeps agencies phases r).
Proof. unfold keeps. apply _. Defined.

(** The rows a filtering step hands on: those of the frame it returns,
    none if it raises. *)
Definition kept (o : outcome DataFrame * world) : list (gmap string cell) :=
  match o.1 with
  | Returns df => rows df
  | _ => []
  end.

(** Every row binds labels of the frame only. *)
Definition frame_ok (df : DataFrame) : Prop :=
  Forall (λ r, dom r ⊆ columns df) (rows df).

#[global] Instance frame_ok_dec df : Decision (frame_ok df).
Proof. unfold frame_ok. apply _. Defined.

(** A row with its amount replaced by an entry of the numeric column. *)
Definition set_amount (r : gmap string cell) (v : option Z) : gmap string cell :=
  partial_alter (λ _, Num <$> v) "award_amount" r.

(** What line 52 makes of the rows of a frame. *)
Definition coerce_rows (reader : string → reading) (rs : list (gmap string cell))
  : option (list (gmap string cell)) :=
  zip_with set_amount rs
    <$> to_numeric_values reader ((λ r, r !! "award_amount") <$> rs).

(** The entry of a row in the numeric amount column: its number, or
    NaN. *)
Definition amount_entry (r : gmap string cell) : option Z :=
  match r !! "award_amount" with
  | Some (Num z) => Some z
  | _ => None
  end.

(** The amounts of the rows are within the exact range: as a
    [float64] column, or as an [int64] column, which has no NaN. *)
Definition exact_amounts (rs : list (gmap string cell)) : Prop :=
  (abs_sum (amount_entry <$> rs) ≤ 2 ^ 53)%Z
  ∨ (Forall is_Some (amount_entry <$> rs)
     ∧ (abs_sum (amount_entry <$> rs) < 2 ^ 63)%Z).

#[global] Instance exact_amounts_dec rs : Decision (exact_amounts rs).
Proof. unfold exact_amounts. apply _. Defined.

(** The amount a row adds to a sum: its number, nothing for NaN. *)
Definition amount (r : gmap string cell) : Z :=
  match r !! "award_amount" with
  | Some (Num z) => z
  | _ => 0
  end.

Definition sum_amounts (rs : list (gmap string cell)) : Z :=
  foldr (λ r acc, amount r + acc) 0 rs.

(** The sum recorded for a key, zero for a key with no group. *)
Definition group_sum (s : Summary) (k : cell) : Z := default 0 (s !! k).

(** The sum of the per-group sums. *)
Definition sum_of_groups (s : Summary) : Z :=
  map_fold (λ _ v acc, v + acc) 0 s.

(** The groups of a list of rows, as [groupby_sum] accumulates them. *)
Definition grouped (col : string) (rs : list (gmap string cell)) : Summary :=
  foldl (group_add col) ∅ rs.

(** The rows of the group of key [k]. *)
Definition members (col : string) (k : cell) (rs : list (gmap string cell))
  : list (gmap string cell) :=
  filter (λ r, group_key (r !! col) = Some k) rs.

(** The rows [groupby(col)] leaves out: their key is null or NaN. *)
Definition ungrouped (col : string) (rs : list (gmap string cell))
  : list (gmap string cell) :=
  filter (λ r, group_key (r !! col) = None) rs.

(** The world in which the script calls the fetcher: the header is on
    the page. *)
Definition header_shown (w : world) : world :=
  set_page (page w ++ [St_title "SBIR Awards Dashboard";
              St_markdown "Analyze SBIR grant awards across agencies and geographies."]) w.

(** A record, that is a JSON object, without the field [col]. *)
Definition lacks (col : string) (item : json) : Prop :=
  match item with
  | JDict d => d !! col = None
  | _ => False
  end.

#[global] Instance lacks_dec col item : Decision (lacks col item).
Proof. destruct item; simpl; apply _. Defined.

(** A record all of whose values are scalars of the fragment. *)
Definition flat_record (item : json) : Prop := is_Some (row_of_json item).

#[global] Instance flat_record_dec item : Decision (flat_record item).
Proof. unfold flat_record. apply _. Defined.

(** The no-data warning, or any other. *)
Definition is_warning (el : element) : Prop :=
  match el with St_warning _ => True | _ => False end.

#[global] Instance is_warning_dec el : Decision (is_warning el).
Proof. destruct el; simpl; apply _. Defined.

(** ** Sample inputs *)

(** The request itself fails, whatever the URL. *)
Definition net_down : network :=
  λ _, inl (RequestException "Failed to resolve 'api.www.sbir.gov'").

(** The body is not JSON. *)
Definition net_not_json : network :=
  λ _, inr (Undecodable "not json" "Expecting value: line 1 column 1 (char 0)").

(** The body is the object [{"error": "x"}]. *)
Definition net_error_object : network :=
  λ _, inr (Decoded (JDict {[ "error" := JStr "x" ]})).

(** The body is [{"results": []}]. *)
Definition net_no_results : network :=
  λ _, inr (Decoded (JDict {[ "results" := JList [] ]})).

(** Scenario A of the specification: two awards in California. *)
Definition award_DOD : json :=
  JDict (list_to_map
    [("agency", JStr "DOD"); ("phase", JStr "Phase I"); ("program", JStr "SBIR");
     ("award_amount", JStr "50000"); ("award_year", JNum 2020);
     ("city", JStr "San Diego"); ("state", JStr "CA")]).

Definition award_NSF : json :=
  JDict (list_to_map
    [("agency", JStr "NSF"); ("phase", JStr "Phase II"); ("program", JStr "STTR");
     ("award_amount", JStr "75000"); ("award_year", JNum 2021);
     ("city", JStr "Fresno"); ("state", JStr "CA")]).

(** An award whose amount is the text [N/A]. *)
Definition award_no_amount : json :=
  JDict (list_to_map
    [("agency", JStr "NASA"); ("phase", JStr "Phase I"); ("program", JStr "SBIR");
     ("award_amount", JStr "N/A"); ("award_year", JNum 2019);
     ("city", JStr "Houston"); ("state", JStr "TX")]).

(** An award whose state is [null]. *)
Definition award_null_state : json :=
  JDict (list_to_map
    [("agency", JStr "NSF"); ("phase", JStr "Phase II"); ("program", JStr "STTR");
     ("award_amount", JNum 75000); ("award_year", JNum 2021);
     ("city", JStr "Fresno"); ("state", JNull)]).

(** An award whose amount is a negative number. *)
Definition award_negative : json :=
  JDict (list_to_map
    [("agency", JStr "DOE"); ("phase", JStr "Phase I"); ("program", JStr "SBIR");
     ("award_amount", JNum (-5000)); ("award_year", JNum 2022);
     ("city", JStr "Reno"); ("state", JStr "NV")]).

(** An award of [2^53 + 1] dollars, the first integer that binary64
    does not hold. *)
Definition award_large : json :=
  JDict (list_to_map
    [("agency", JStr "DOD"); ("phase", JStr "Phase II"); ("program", JStr "SBIR");
     ("award_amount", JNum 9007199254740993); ("award_year", JNum 2020);
     ("city", JStr "San Diego"); ("state", JStr "CA")]).

(** An award object without the [award_amount] key. *)
Definition award_without_amount : json :=
  JDict (list_to_map
    [("agency", JStr "DOD"); ("phase", JStr "Phase I"); ("program", JStr "SBIR");
     ("award_year", JNum 2020); ("city", JStr "San Diego"); ("state", JStr "CA")]).

(** An award object without the [award_amount] key, with a boolean
    and a float ([1.5]) among its values. *)
Definition award_flagged : json :=
  JDict (list_to_map
    [("agency", JStr "DOD"); ("phase", JStr "Phase I"); ("program", JStr "SBIR");
     ("award_year", JNum 2020); ("city", JStr "San Diego"); ("state", JStr "CA");
     ("hubzone_owned", JBool true);
     ("score", JFloat (S754_finite false 3 (-1)))]).

(** A complete award with a boolean and a float ([1.5]) among its
    values. *)
Definition award_rated : json :=
  JDict (list_to_map
    [("agency", JStr "DOD"); ("phase", JStr "Phase I"); ("program", JStr "SBIR");
     ("award_amount", JStr "50000"); ("award_year", JNum 2020);
     ("city", JStr "San Diego"); ("state", JStr "CA");
     ("hubzone_owned", JBool true);
     ("score", JFloat (S754_finite false 3 (-1)))]).

(** The API answers every request with the given decoded body. *)
Definition net_answers (data : json) : network := λ _, inr (Decoded data).

(** The rows of the sample awards, before and after line 52. *)
Definition raw_row (item : json) : gmap string cell :=
  match rows_of_json [item] with
  | Some [r] => r
  | _ => ∅
  end.

Definition row (item : json) : gmap string cell :=
  match coerce_rows read_decimal [raw_row item] with
  | Some [r] => r
  | _ => ∅
  end.

(** Scenario A as a normalised frame. *)
Definition scenario_A : DataFrame :=
  Frame (list_to_set detail_columns) [row award_DOD; row award_NSF].

(** An award object without the [state] key, and the frame of it. *)
Definition award_without_state : json :=
  JDict (list_to_map
    [("agency", JStr "DOD"); ("phase", JStr "Phase I"); ("program", JStr "SBIR");
     ("award_amount", JStr "50000"); ("award_year", JNum 2020);
     ("city", JStr "San Diego")]).

Definition frame_without_state : DataFrame :=
  Frame (list_to_set
           ["agency"; "phase"; "program"; "award_amount"; "award_year"; "city"])
        [row award_without_state].

(** * The fetcher *)

Lemma bind_run {A B} (m : prog A) (k : A → prog B) (w : world) :
  (m ≫= k) w =
    match m w with
    | (Returns a, w') => k a w'
    | (Raises e, w') => (Raises e, w')
    | (OutsideModel, w') => (OutsideModel, w')
    end.
Proof. reflexivity. Qed.

Lemma bind_returns {A B} (m : prog A) (k : A → prog B) w a w' :
  m w = (Returns a, w') → (m ≫= k) w = k a w'.
Proof. intros H. by rewrite bind_run, H. Qed.

Lemma bind_raises {A B} (m : prog A) (k : A → prog B) w e w' :
  m w = (Raises e, w') → (m ≫= k) w = (Raises e, w').
Proof. intros H. by rewrite bind_run, H. Qed.

(** The request failed: the exception leaves the function as it came,
    with the request logged and nothing shown. *)
Lemma fetch_request_failed net name w e :
  net (awards_url name) = inl e →
  fetch_sbir_awards net name w =
    (Raises e, set_wire (wire w ++ [(awards_url name, inl e)]) w).
Proof.
  intros Hnet. unfold fetch_sbir_awards. rewrite bind_run.
  unfold requests_get. by rewrite Hnet.
Qed.

(** The body did not decode: the handler reports and returns [[]]. *)
Lemma fetch_undecodable net name w body why :
  net (awards_url name) = inr (Undecodable body why) →
  fetch_sbir_awards net name w =
    (Returns (JList []),
     World (cache w)
           (wire w ++ [(awards_url name, inr (Undecodable body why))])
           (page w ++ [St_error ("Error parsing JSON: " +:+ why)])).
Proof.
  intros Hnet. unfold fetch_sbir_awards. rewrite bind_run.
  unfold requests_get. by rewrite Hnet.
Qed.

(** The body decoded: the value is picked by shape, nothing is shown. *)
Lemma fetch_decoded net name w data :
  net (awards_url name) = inr (Decoded data) →
  fetch_sbir_awards net name w =
    (Returns (if is_list data then data
              else default (JList []) (dict_results data)),
     set_wire (wire w ++ [(awards_url name, inr (Decoded data))]) w).
Proof.
  intros Hnet. unfold fetch_sbir_awards. rewrite bind_run.
  unfold requests_get. rewrite Hnet. cbn.
  unfold try_except. rewrite bind_run. cbn.
  destruct (is_list data); [done|]. by destruct (dict_results data).
Qed.

(** Once a response is there, the function returns whatever the body. *)
Lemma fetch_answered_returns net name w r :
  net (awards_url name) = inr r →
  ∃ v shown,
    fetch_sbir_awards net name w =
      (Returns v, World (cache w) (wire w ++ [(awards_url name, inr r)])
                        (page w ++ shown)).
Proof.
  intros Hnet. destruct r as [body why|data].
  - eexists _, _. by apply fetch_undecodable.
  - exists (if is_list data then data else default (JList []) (dict_results data)), [].
    rewrite (fetch_decoded _ _ _ _ Hnet). by rewrite app_nil_r.
Qed.

Lemma cache_hit f arg w v shown :
  cache w !! arg = Some (v, shown) →
  cache_data f arg w = (Returns v, set_page (page w ++ shown) w).
Proof. intros H. unfold cache_data. by rewrite H. Qed.

Lemma cache_miss_returns f arg w v w' :
  cache w !! arg = None →
  f arg (set_page [] w) = (Returns v, w') →
  cache_data f arg w =
    (Returns v, World (<[arg := (v, page w')]> (cache w')) (wire w')
                      (page w ++ page w')).
Proof. intros H Hf. unfold cache_data. by rewrite H, Hf. Qed.

Lemma cache_miss_raises f arg w e w' :
  cache w !! arg = None →
  f arg (set_page [] w) = (Raises e, w') →
  cache_data f arg w = (Raises e, set_page (page w ++ page w') w').
Proof. intros H Hf. unfold cache_data. by rewrite H, Hf. Qed.

(** The title and the description precede the fetch in every run. *)
Lemma script_run reader net name af pf w :
  script reader net name af pf w =
    let w0 := set_page (page w ++ [St_title "SBIR Awards Dashboard";
                St_markdown "Analyze SBIR grant awards across agencies and geographies."]) w in
    match cached_fetch_sbir_awards net name w0 with
    | (Returns data, w1) =>
        (if negb (truthy data)
         then st_warning "No data found. Please check the company name or try a different query."
         else dashboard reader data af pf) w1
    | (Raises e, w1) => (Raises e, w1)
    | (OutsideModel, w1) => (OutsideModel, w1)
    end.
Proof.
  unfold script. rewrite bind_run. cbn. rewrite bind_run. cbn.
  rewrite bind_run. unfold set_page. cbn. rewrite <- app_assoc. reflexivity.
Qed.

(** C1, as the code has it: a failure of the outbound request is not
    caught.  [requests.get] is called before the [try] block, so its
    exception leaves [fetch_sbir_awards] and the memoising wrapper
    unchanged, nothing is reported or memoised, and the run of the
    script ends with that exception right after the page header, before
    any aggregation or presentation. *)
Theorem request_failure_propagates reader net name af pf w e :
  net (awards_url name) = inl e →
  cache w !! name = None →
  fetch_sbir_awards net name w =
    (Raises e, set_wire (wire w ++ [(awards_url name, inl e)]) w)
  ∧ cached_fetch_sbir_awards net name w =
    (Raises e, set_wire (wire w ++ [(awards_url name, inl e)]) w)
  ∧ script reader net name af pf w =
    (Raises e,
     World (cache w) (wire w ++ [(awards_url name, inl e)])
           (page w ++ [St_title "SBIR Awards Dashboard";
              St_markdown "Analyze SBIR grant awards across agencies and geographies."])).
Proof.
  intros Hnet Hmiss.
  assert (Hcached : ∀ w', cache w' !! name = None →
    cached_fetch_sbir_awards net name w' =
      (Raises e, set_wire (wire w' ++ [(awards_url name, inl e)]) w')).
  { intros w' Hw'. unfold cached_fetch_sbir_awards.
    erewrite cache_miss_raises; [|done|by apply fetch_request_failed].
    destruct w'; unfold set_wire, set_page; cbn. by rewrite app_nil_r. }
  split; [by apply fetch_request_failed|].
  split; [by apply Hcached|].
  rewrite script_run. cbn zeta. by rewrite Hcached.
Qed.

Lemma request_failure_propagates_witness :
  (script read_decimal net_down "ExampleCompany" ["DOD"] [] fresh).1
  = Raises (RequestException "Failed to resolve 'api.www.sbir.gov'").
Proof.
  pose proof (request_failure_propagates read_decimal net_down
    "ExampleCompany" ["DOD"] [] fresh
    (RequestException "Failed to resolve 'api.www.sbir.gov'")
    eq_refl eq_refl) as (_ & _ & ->).
  reflexivity.
Defined.

(** C1 as stated fails: with the network down the fetcher does not
    return the empty sequence and reports nothing; it raises. *)
Lemma request_failure_is_not_caught :
  fetch_sbir_awards net_down "ExampleCompany" fresh =
    (Raises (RequestException "Failed to resolve 'api.www.sbir.gov'"),
     World ∅ [(awards_url "ExampleCompany",
               inl (RequestException "Failed to resolve 'api.www.sbir.gov'"))] [])
  ∧ ¬ (∃ w', fetch_sbir_awards net_down "ExampleCompany" fresh
             = (Returns (JList []), w')).
Proof.
  split; [reflexivity|]. intros [w' H]. discriminate H.
Qed.

(** C6: a bare list and an object holding the same list under
    [results] give the same value, the list itself, and show nothing. *)
Theorem bare_list_and_results_object_agree net1 net2 name w L d :
  net1 (awards_url name) = inr (Decoded (JList L)) →
  net2 (awards_url name) = inr (Decoded (JDict d)) →
  d !! "results" = Some (JList L) →
  (fetch_sbir_awards net1 name w).1 = Returns (JList L)
  ∧ (fetch_sbir_awards net2 name w).1 = Returns (JList L)
  ∧ page (fetch_sbir_awards net1 name w).2 = page w
  ∧ page (fetch_sbir_awards net2 name w).2 = page w.
Proof.
  intros H1 H2 Hd.
  rewrite (fetch_decoded _ _ _ _ H1), (fetch_decoded _ _ _ _ H2).
  cbn. by rewrite Hd.
Qed.

Lemma bare_list_and_results_object_agree_witness :
  (fetch_sbir_awards (λ _, inr (Decoded (JList [JNum 1; JNum 2]))) "ExampleCompany" fresh).1
  = Returns (JList [JNum 1; JNum 2])
  ∧ (fetch_sbir_awards
       (λ _, inr (Decoded (JDict {[ "results" := JList [JNum 1; JNum 2] ]})))
       "ExampleCompany" fresh).1
  = Returns (JList [JNum 1; JNum 2]).
Proof.
  pose proof (bare_list_and_results_object_agree
    (λ _, inr (Decoded (JList [JNum 1; JNum 2])))
    (λ _, inr (Decoded (JDict {[ "results" := JList [JNum 1; JNum 2] ]})))
    "ExampleCompany" fresh [JNum 1; JNum 2]
    {[ "results" := JList [JNum 1; JNum 2] ]}
    eq_refl eq_refl eq_refl) as (H1 & H2 & _).
  exact (conj H1 H2).
Defined.

(** C7, as the code has it: a body that does not decode gives the empty
    sequence and an error on the page; a body that decodes to anything
    but a list or an object with [results] gives the empty sequence and
    shows nothing. *)
Theorem malformed_body_yields_no_data net name w r :
  net (awards_url name) = inr r →
  match r with
  | Undecodable _ why =>
      fetch_sbir_awards net name w =
        (Returns (JList []),
         World (cache w) (wire w ++ [(awards_url name, inr r)])
               (page w ++ [St_error ("Error parsing JSON: " +:+ why)]))
  | Decoded data =>
      is_list data = false → dict_results data = None →
      fetch_sbir_awards net name w =
        (Returns (JList []),
         World (cache w) (wire w ++ [(awards_url name, inr r)]) (page w))
  end.
Proof.
  intros Hnet. destruct r as [body why|data].
  - by apply fetch_undecodable.
  - intros Hl Hd. rewrite (fetch_decoded _ _ _ _ Hnet), Hl, Hd. done.
Qed.

Lemma malformed_body_yields_no_data_witness :
  fetch_sbir_awards net_not_json "ExampleCompany" fresh =
    (Returns (JList []),
     World ∅
       [(awards_url "ExampleCompany",
         inr (Undecodable "not json" "Expecting value: line 1 column 1 (char 0)"))]
       [St_error "Error parsing JSON: Expecting value: line 1 column 1 (char 0)"]).
Proof.
  exact (malformed_body_yields_no_data net_not_json "ExampleCompany" fresh
           (Undecodable "not json" "Expecting value: line 1 column 1 (char 0)")
           eq_refl).
Defined.

(** C7 as stated fails on [{"error": "x"}]: the fetcher returns the
    empty sequence and no error is reported; the run shows the header
    and the no-data warning, exactly the page of an empty result
    list. *)
Lemma error_object_is_silent :
  fetch_sbir_awards net_error_object "ExampleCompany" fresh =
    (Returns (JList []),
     World ∅ [(awards_url "ExampleCompany",
               inr (Decoded (JDict {[ "error" := JStr "x" ]})))] [])
  ∧ filter is_error
      (page (script read_decimal net_error_object "ExampleCompany" [] [] fresh).2) = []
  ∧ page (script read_decimal net_error_object "ExampleCompany" [] [] fresh).2
    = page (script read_decimal net_no_results "ExampleCompany" [] [] fresh).2.
Proof. split; [reflexivity|]. split; vm_compute; reflexivity. Qed.

(** ** Memoisation *)

Lemma string_length_app (s t : string) :
  String.length (s +:+ t) = (String.length s + String.length t)%nat.
Proof. induction s as [|a s IH]; simpl; [done|]. by rewrite IH. Qed.

Lemma string_app_inv_tail (s1 s2 t : string) :
  s1 +:+ t = s2 +:+ t → s1 = s2.
Proof.
  revert s2. induction s1 as [|a s1 IH]; intros [|b s2] H; simpl in H.
  - done.
  - apply (f_equal String.length) in H.
    rewrite ?string_length_app in H. simpl in H.
    rewrite ?string_length_app in H. lia.
  - apply (f_equal String.length) in H.
    rewrite ?string_length_app in H. simpl in H.
    rewrite ?string_length_app in H. lia.
  - injection H as -> H. f_equal. by apply IH.
Qed.

(** Distinct names are requested at distinct URLs. *)
Lemma awards_url_inj (n1 n2 : string) :
  awards_url n1 = awards_url n2 → n1 = n2.
Proof.
  unfold awards_url. intros H.
  apply String.app_inj in H. by apply string_app_inv_tail in H.
Qed.

Lemma answered_snoc_failed url l u e :
  answered url (l ++ [(u, inl e)]) = answered url l.
Proof.
  unfold answered. rewrite filter_app, length_app.
  rewrite filter_cons_False; [cbn; lia|].
  cbn. intros [_ [? ?]]. discriminate.
Qed.

Lemma answered_snoc_other url l u x :
  u ≠ url → answered url (l ++ [(u, x)]) = answered url l.
Proof.
  intros Hne. unfold answered. rewrite filter_app, length_app.
  rewrite filter_cons_False; [cbn; lia|]. cbn. by intros [? _].
Qed.

Lemma answered_snoc_response url l r :
  answered url (l ++ [(url, inr r)]) = S (answered url l).
Proof.
  unfold answered. rewrite filter_app, length_app.
  rewrite filter_cons_True; [cbn; lia|]. cbn. eauto.
Qed.

(** A hit leaves the store and the wire alone; a miss runs the function
    once. *)
Lemma cached_fetch_step net name w :
  match cache w !! name with
  | Some (v, shown) =>
      cached_fetch_sbir_awards net name w
      = (Returns v, set_page (page w ++ shown) w)
  | None =>
      match net (awards_url name) with
      | inl e =>
          cached_fetch_sbir_awards net name w
          = (Raises e, set_wire (wire w ++ [(awards_url name, inl e)]) w)
      | inr r =>
          ∃ v shown,
            cached_fetch_sbir_awards net name w
            = (Returns v,
               World (<[name := (v, shown)]> (cache w))
                     (wire w ++ [(awards_url name, inr r)])
                     (page w ++ shown))
      end
  end.
Proof.
  destruct (cache w !! name) as [[v shown]|] eqn:Hc.
  - by apply cache_hit.
  - destruct (net (awards_url name)) as [e|r] eqn:Hnet.
    + unfold cached_fetch_sbir_awards.
      erewrite cache_miss_raises; [|done|by apply fetch_request_failed].
      destruct w; unfold set_wire, set_page; cbn. by rewrite app_nil_r.
    + destruct (fetch_answered_returns net name (set_page [] w) r Hnet)
        as (v & shown & Hf).
      exists v, shown. unfold cached_fetch_sbir_awards.
      erewrite cache_miss_returns; [|done|exact Hf]. done.
Qed.

(** A call that returns leaves its value in the store. *)
Lemma cached_fetch_returns_memoised net name w v w' :
  cached_fetch_sbir_awards net name w = (Returns v, w') →
  ∃ shown, cache w' !! name = Some (v, shown).
Proof.
  intros H. pose proof (cached_fetch_step net name w) as Hstep.
  destruct (cache w !! name) as [[v0 shown]|] eqn:Hc.
  - rewrite Hstep in H. injection H as <- <-. by exists shown.
  - destruct (net (awards_url name)) as [e|r].
    + rewrite Hstep in H. discriminate.
    + destruct Hstep as (v0 & shown & Hstep). rewrite Hstep in H.
      injection H as <- <-. exists shown. cbn. by rewrite lookup_insert_eq.
Qed.

(** An entry of the store survives every later call. *)
Lemma cached_fetch_keeps_entry net n w name x :
  cache w !! name = Some x →
  cache (cached_fetch_sbir_awards net n w).2 !! name = Some x.
Proof.
  intros Hx. pose proof (cached_fetch_step net n w) as Hstep.
  destruct (cache w !! n) as [[v0 shown]|] eqn:Hc.
  - by rewrite Hstep.
  - destruct (net (awards_url n)) as [e|r].
    + by rewrite Hstep.
    + destruct Hstep as (v0 & shown & ->). cbn.
      rewrite lookup_insert_ne; [done|]. intros ->. congruence.
Qed.

Lemma run_calls_keeps_entry calls w name x :
  cache w !! name = Some x → cache (run_calls calls w) !! name = Some x.
Proof.
  revert w. induction calls as [|[net n] calls IH]; intros w Hx; [done|].
  cbn. apply IH. by apply cached_fetch_keeps_entry.
Qed.

Lemma cached_fetch_consistent net n w :
  memo_consistent w → memo_consistent (cached_fetch_sbir_awards net n w).2.
Proof.
  intros Hw name. pose proof (cached_fetch_step net n w) as Hstep.
  pose proof (Hw name) as Hname. pose proof (Hw n) as Hn.
  destruct (cache w !! n) as [[v0 shown]|] eqn:Hc.
  - by rewrite Hstep.
  - destruct (net (awards_url n)) as [e|r].
    + rewrite Hstep. cbn [snd cache wire set_wire set_page].
      rewrite answered_snoc_failed. exact Hname.
    + destruct Hstep as (v0 & shown & ->). cbn [snd cache wire].
      destruct (decide (n = name)) as [->|Hne].
      * rewrite lookup_insert_eq, answered_snoc_response. rewrite Hn. lia.
      * rewrite lookup_insert_ne by done.
        rewrite answered_snoc_other; [exact Hname|].
        intros Hurl. by apply awards_url_inj in Hurl.
Qed.

Lemma run_calls_consistent calls w :
  memo_consistent w → memo_consistent (run_calls calls w).
Proof.
  revert w. induction calls as [|[net n] calls IH]; intros w Hw; [done|].
  cbn. apply IH. by apply cached_fetch_consistent.
Qed.

(** C9, as the code has it.  Over any sequence of calls from an empty
    store, under any networks: at most one request per name ever comes
    back with a response; and once a call for a name has returned, every
    later call for it returns the same value without issuing a
    request. *)
Theorem memoised_once_returned (calls : list (network * string)) (name : string) :
  let w := run_calls calls fresh in
  (answered (awards_url name) (wire w) ≤ 1)%nat
  ∧ (∀ net v w',
       cached_fetch_sbir_awards net name w = (Returns v, w') →
       ∀ later net',
         let w2 := run_calls later w' in
         (cached_fetch_sbir_awards net' name w2).1 = Returns v
         ∧ wire (cached_fetch_sbir_awards net' name w2).2 = wire w2).
Proof.
  intros w. split.
  - assert (Hw : memo_consistent w).
    { apply run_calls_consistent. intros n. cbn. by rewrite lookup_empty. }
    specialize (Hw name). destruct (cache w !! name); lia.
  - intros net v w' Hret later net' w2.
    destruct (cached_fetch_returns_memoised _ _ _ _ _ Hret) as [shown Hin].
    apply (run_calls_keeps_entry later) in Hin. fold w2 in Hin.
    pose proof (cached_fetch_step net' name w2) as Hstep.
    rewrite Hin in Hstep. by rewrite Hstep.
Qed.

Lemma memoised_once_returned_witness :
  (cached_fetch_sbir_awards net_down "ExampleCompany"
     (cached_fetch_sbir_awards net_no_results "ExampleCompany" fresh).2).1
  = Returns (JList []).
Proof.
  pose proof (memoised_once_returned [] "ExampleCompany") as [_ H].
  exact (proj1 (H net_no_results (JList []) _ eq_refl [] net_down)).
Defined.

(** C9 as stated fails: while the request keeps failing nothing is
    memoised, and two calls with the same name issue two requests. *)
Lemma failed_request_is_reissued :
  issued (awards_url "ExampleCompany")
    (wire (run_calls [(net_down, "ExampleCompany"); (net_down, "ExampleCompany")]
                     fresh)) = 2%nat.
Proof. vm_compute. reflexivity. Qed.

(** * The pipeline *)

(** ** Columns and masks *)

Lemma getitem_present df col w :
  col ∈ columns df →
  getitem df col w = (Returns ((λ r, r !! col) <$> rows df), w).
Proof. intros H. unfold getitem. by rewrite decide_True. Qed.

Lemma getitem_absent df col w :
  col ∉ columns df → getitem df col w = (Raises (KeyError [col]), w).
Proof. intros H. unfold getitem. by rewrite decide_False. Qed.

Lemma select_fmap {A} (f : A → bool) (l : list A) :
  select l (f <$> l) = filter (λ x, f x = true) l.
Proof.
  induction l as [|x l IH]; [done|].
  rewrite fmap_cons, filter_cons. simpl select. rewrite IH.
  destruct (f x); by case_decide.
Qed.

Lemma isin_cell_field_in values r col :
  isin_cell values (r !! col) = true ↔ field_in r col values.
Proof.
  unfold isin_cell, field_in. destruct (r !! col) as [[]|]; try (split; [discriminate|done]).
  apply bool_decide_eq_true.
Qed.

(** One filter: the rows whose cell is among the values, in order. *)
Lemma boolean_index_isin df col values :
  boolean_index df (isin ((λ r, r !! col) <$> rows df) values)
  = Frame (columns df) (filter (λ r, field_in r col values) (rows df)).
Proof.
  unfold boolean_index, isin. f_equal.
  rewrite <- list_fmap_compose, select_fmap.
  apply list_filter_iff. intros r. apply isin_cell_field_in.
Qed.

Lemma filter_all {A} (P : A → Prop) `{!∀ x, Decision (P x)} (l : list A) :
  (∀ x, P x) → filter P l = l.
Proof.
  intros HP. induction l as [|x l IH]; [done|].
  by rewrite filter_cons_True, IH.
Qed.

Lemma filter_none {A} (P : A → Prop) `{!∀ x, Decision (P x)} (l : list A) :
  (∀ x, x ∈ l → ¬ P x) → filter P l = [].
Proof.
  intros HP. induction l as [|x l IH]; [done|].
  rewrite filter_cons_False; [|apply HP; left].
  apply IH. intros y Hy. apply HP. by right.
Qed.

(** One of the two optional filters. *)
Lemma filter_stage_run df col values w :
  match values with
  | [] => mret df
  | _ => s ← getitem df col; mret (boolean_index df (isin s values))
  end w
  = if decide (values ≠ [] ∧ col ∉ columns df)
    then (Raises (KeyError [col]), w)
    else (Returns (Frame (columns df)
                     (filter (λ r, values = [] ∨ field_in r col values) (rows df))),
          w).
Proof.
  destruct values as [|v values].
  - rewrite decide_False; [|intros [? _]; done].
    rewrite filter_all; [|by left]. by destruct df.
  - destruct (decide (col ∈ columns df)) as [Hin|Hout].
    + rewrite decide_False; [|intros [_ ?]; done].
      rewrite (bind_returns _ _ _ _ _ (getitem_present _ _ _ Hin)).
      rewrite boolean_index_isin. unfold mret, prog_ret. do 3 f_equal.
      apply list_filter_iff. intros r. split; [by right|].
      intros [?|?]; done.
    + rewrite decide_True; [|done].
      by rewrite (bind_raises _ _ _ _ _ (getitem_absent _ _ _ Hout)).
Qed.

(** The two filters, run one after the other, select by [keeps]. *)
Lemma apply_filters_run df af pf w :
  apply_filters df af pf w
  = if decide (af ≠ [] ∧ "agency" ∉ columns df)
    then (Raises (KeyError ["agency"]), w)
    else if decide (pf ≠ [] ∧ "phase" ∉ columns df)
    then (Raises (KeyError ["phase"]), w)
    else (Returns (Frame (columns df) (filter (keeps af pf) (rows df))), w).
Proof.
  unfold apply_filters. rewrite bind_run, filter_stage_run.
  case_decide; [done|]. rewrite filter_stage_run. cbn [columns rows].
  case_decide; [done|]. do 2 f_equal.
  rewrite list_filter_filter. f_equal. apply list_filter_iff. intros r.
  unfold keeps. tauto.
Qed.

(** A frame whose rows bind its labels only has no cell where it has no
    column. *)
Lemma frame_ok_absent df col r :
  frame_ok df → col ∉ columns df → r ∈ rows df → r !! col = None.
Proof.
  intros Hok Hcol Hr. unfold frame_ok in Hok.
  rewrite Forall_forall in Hok. specialize (Hok r Hr).
  apply not_elem_of_dom. set_solver.
Qed.

(** C3: the filtering step hands on exactly the records that the
    filter of the specification keeps, in their order and as often as
    they occur; where it raises because a consulted column is missing,
    no record passes that filter either.  With both sets empty the
    frame is returned as it is. *)
Theorem filtering_keeps_exactly df af pf w :
  frame_ok df →
  kept (apply_filters df af pf w) = filter (keeps af pf) (rows df)
  ∧ kept (apply_filters df af pf w) `sublist_of` rows df
  ∧ (∀ r, r ∈ kept (apply_filters df af pf w) ↔ keeps af pf r ∧ r ∈ rows df)
  ∧ ((af = [] ∨ "agency" ∈ columns df) → (pf = [] ∨ "phase" ∈ columns df) →
     apply_filters df af pf w
     = (Returns (Frame (columns df) (filter (keeps af pf) (rows df))), w))
  ∧ apply_filters df [] [] w = (Returns df, w).
Proof.
  intros Hok.
  assert (Hkept : kept (apply_filters df af pf w) = filter (keeps af pf) (rows df)).
  { rewrite apply_filters_run. unfold kept.
    destruct (decide (af ≠ [] ∧ "agency" ∉ columns df)) as [[Haf Hcol]|_].
    { symmetry. apply filter_none. intros r Hr [[Ha|Ha] _]; [done|].
      unfold field_in in Ha.
      by rewrite (frame_ok_absent df "agency" r) in Ha. }
    destruct (decide (pf ≠ [] ∧ "phase" ∉ columns df)) as [[Hpf Hcol]|_]; [|done].
    symmetry. apply filter_none. intros r Hr [_ [Hp|Hp]]; [done|].
    unfold field_in in Hp.
    by rewrite (frame_ok_absent df "phase" r) in Hp. }
  split; [done|]. rewrite Hkept.
  split; [apply sublist_filter|].
  split; [intros r; apply list_elem_of_filter|].
  split.
  - intros Ha Hp. rewrite apply_filters_run.
    rewrite decide_False; [|intros [? ?]; by destruct Ha].
    rewrite decide_False; [done|intros [? ?]; by destruct Hp].
  - rewrite apply_filters_run.
    rewrite decide_False; [|intros [? _]; done].
    rewrite decide_False; [|intros [? _]; done].
    rewrite filter_all; [by destruct df|]. intros r. split; by left.
Qed.

Lemma filtering_keeps_exactly_witness :
  kept (apply_filters scenario_A ["DOD"] [] fresh) = [row award_DOD]
  ∧ apply_filters scenario_A [] [] fresh = (Returns scenario_A, fresh).
Proof.
  assert (Hok : frame_ok scenario_A).
  { apply (bool_decide_unpack _). vm_compute. exact I. }
  destruct (filtering_keeps_exactly scenario_A ["DOD"] [] fresh Hok)
    as (Hkept & _ & _ & _ & Hid).
  split; [|exact Hid]. rewrite Hkept. vm_compute. reflexivity.
Defined.

(** ** Building and normalising the frame *)

Lemma set_amount_amount r v : set_amount r v !! "award_amount" = Num <$> v.
Proof. unfold set_amount. by rewrite lookup_partial_alter_eq. Qed.

Lemma set_amount_other r v col :
  col ≠ "award_amount" → set_amount r v !! col = r !! col.
Proof. intros H. unfold set_amount. by rewrite lookup_partial_alter_ne. Qed.

(** The numeric column has one entry per entry of the column read. *)
Lemma to_numeric_values_length reader s vs :
  to_numeric_values reader s = Some vs → length vs = length s.
Proof.
  unfold to_numeric_values. intros H.
  destruct (mapM (to_numeric_cell reader) s) as [rs|] eqn:Hrs; [|done].
  apply length_mapM in Hrs. cbn in H.
  destruct (mapM as_int64 rs) as [zs|] eqn:Hzs.
  - apply length_mapM in Hzs. case_match; [|done].
    injection H as <-. rewrite length_fmap. congruence.
  - destruct (mapM as_float64 rs) as [vs'|] eqn:Hvs; [|done].
    apply length_mapM in Hvs. cbn in H. case_match; [|done].
    injection H as <-. congruence.
Qed.

(** What line 52 hands on: the rows with their amounts replaced, one
    for one. *)
Lemma coerce_rows_inv reader rs rs' :
  coerce_rows reader rs = Some rs' →
  ∃ vs, length vs = length rs ∧ rs' = zip_with set_amount rs vs.
Proof.
  unfold coerce_rows. intros H.
  destruct (to_numeric_values reader _) as [vs|] eqn:Hvs; [|done].
  injection H as <-. exists vs. split; [|done].
  apply to_numeric_values_length in Hvs. by rewrite length_fmap in Hvs.
Qed.

(** Line 52 on a frame. *)
Lemma normalize_amounts_run reader df w :
  normalize_amounts reader df w
  = if decide ("award_amount" ∈ columns df)
    then match coerce_rows reader (rows df) with
         | Some rs => (Returns (Frame (columns df) rs), w)
         | None => (OutsideModel, w)
         end
    else (Raises (KeyError ["award_amount"]), w).
Proof.
  unfold normalize_amounts. case_decide as Hcol.
  - rewrite (bind_returns _ _ _ _ _ (getitem_present _ _ _ Hcol)).
    rewrite bind_run. unfold pd_to_numeric, coerce_rows.
    destruct (to_numeric_values reader _) as [vs|]; [|done].
    unfold mret, prog_ret, setitem. cbn [fmap option_fmap option_map].
    do 2 f_equal. f_equal.
    + apply subseteq_union_1_L. by apply singleton_subseteq_l.
    + by rewrite zip_with_fmap_r.
  - by rewrite (bind_raises _ _ _ _ _ (getitem_absent _ _ _ Hcol)).
Qed.

(** The filter looks at [agency] and [phase] only, which line 52 does
    not touch. *)
Lemma keeps_set_amount af pf r v :
  keeps af pf (set_amount r v) ↔ keeps af pf r.
Proof.
  unfold keeps, field_in. by rewrite !set_amount_other.
Qed.

(** Lines 51 to 58 as one function of the decoded value. *)
Lemma prepare_run reader data af pf w :
  prepare reader data af pf w
  = match data with
    | JList items =>
        match rows_of_json items with
        | Some rs =>
            let cols := ⋃ (dom <$> rs) in
            if decide ("award_amount" ∈ cols) then
              match coerce_rows reader rs with
              | Some rs' =>
                  if decide (af ≠ [] ∧ "agency" ∉ cols)
                  then (Raises (KeyError ["agency"]), w)
                  else if decide (pf ≠ [] ∧ "phase" ∉ cols)
                  then (Raises (KeyError ["phase"]), w)
                  else (Returns (Frame cols (filter (keeps af pf) rs')), w)
              | None => (OutsideModel, w)
              end
            else (Raises (KeyError ["award_amount"]), w)
        | None => (OutsideModel, w)
        end
    | _ => (OutsideModel, w)
    end.
Proof.
  unfold prepare. rewrite bind_run. unfold pd_DataFrame.
  destruct data as [| | | |items| |]; try done.
  destruct (rows_of_json items) as [rs|]; [|done].
  unfold mret at 1, prog_ret at 1.
  rewrite bind_run, normalize_amounts_run. cbn [columns rows].
  cbn zeta. case_decide; [|done].
  destruct (coerce_rows reader rs) as [rs'|]; [|done].
  by rewrite apply_filters_run.
Qed.

(** What a returning run of lines 51 to 58 tells: the value was a
    list of flat records, line 52 stayed within the exact range, the
    columns consulted were there, and the frame holds the rows the
    filters keep. *)
Lemma prepare_inv reader data af pf w df w' :
  prepare reader data af pf w = (Returns df, w') →
  ∃ items rs rs',
    data = JList items ∧ rows_of_json items = Some rs
    ∧ coerce_rows reader rs = Some rs'
    ∧ columns df = ⋃ (dom <$> rs)
    ∧ rows df = filter (keeps af pf) rs'
    ∧ "award_amount" ∈ columns df
    ∧ (af ≠ [] → "agency" ∈ columns df)
    ∧ (pf ≠ [] → "phase" ∈ columns df)
    ∧ w' = w.
Proof.
  rewrite prepare_run. intros Hrun.
  destruct data as [| | | |items| |]; try done.
  destruct (rows_of_json items) as [rs|] eqn:Hrs; [|done].
  cbn zeta in Hrun.
  destruct (decide ("award_amount" ∈ ⋃ (dom <$> rs))) as [Haa|]; [|done].
  destruct (coerce_rows reader rs) as [rs'|] eqn:Hco; [|done].
  destruct (decide (af ≠ [] ∧ "agency" ∉ ⋃ (dom <$> rs))) as [|Hag]; [done|].
  destruct (decide (pf ≠ [] ∧ "phase" ∉ ⋃ (dom <$> rs))) as [|Hph]; [done|].
  injection Hrun as <- <-. exists items, rs, rs'. cbn [columns rows].
  do 6 (split; [done|]). split; [|split; [|done]].
  - intros Hne. destruct (decide ("agency" ∈ ⋃ (dom <$> rs))); [done|].
    by destruct Hag.
  - intros Hne. destruct (decide ("phase" ∈ ⋃ (dom <$> rs))); [done|].
    by destruct Hph.
Qed.

(** C2, as the code has it: in every row that reaches the aggregation
    stage the amount is a number, of either sign, or NaN; it is never a
    string and never null. *)
Theorem amount_is_number_or_nan reader data af pf w df w' r :
  prepare reader data af pf w = (Returns df, w') →
  r ∈ rows df →
  r !! "award_amount" = None ∨ ∃ z, r !! "award_amount" = Some (Num z).
Proof.
  intros Hrun Hr.
  destruct (prepare_inv _ _ _ _ _ _ _ Hrun)
    as (items & rs & rs' & _ & _ & Hco & _ & Hrows & _).
  rewrite Hrows in Hr. apply list_elem_of_filter in Hr as [_ Hr].
  apply coerce_rows_inv in Hco as (vs & _ & ->).
  apply elem_of_lookup_zip_with in Hr as (i & r0 & v & -> & _ & _).
  rewrite set_amount_amount. destruct v; cbn; eauto.
Qed.

Lemma amount_is_number_or_nan_witness :
  row award_no_amount !! "award_amount" = None
  ∨ ∃ z, row award_no_amount !! "award_amount" = Some (Num z).
Proof.
  apply (amount_is_number_or_nan read_decimal
           (JList [award_DOD; award_no_amount]) ["NASA"] [] fresh
           (Frame (list_to_set detail_columns) [row award_no_amount]) fresh
           (row award_no_amount)).
  - vm_compute. reflexivity.
  - simpl. left.
Defined.

(** C2 as stated fails: an amount below zero is a number like any
    other to line 52; it reaches the aggregation and is shown as the
    total. *)
Lemma negative_amount_reaches_aggregation :
  (λ r, r !! "award_amount") <$>
    kept (prepare read_decimal (JList [award_negative]) [] [] fresh)
  = [Some (Num (-5000))]
  ∧ page (script read_decimal (net_answers (JList [award_negative]))
                 "ExampleCompany" [] [] fresh).2 !! 2%nat
    = Some (St_metric "Total Awarded ($)" (Dollars (-5000)))
  ∧ -5000 < 0.
Proof. split; [|split]; [vm_compute; reflexivity..|lia]. Qed.

(** The frames the script filters bind their own labels only: the
    filtering step always works on a frame that is [frame_ok]. *)
Lemma normalized_frame_ok reader (rs rs' : list (gmap string cell)) :
  "award_amount" ∈ (⋃ (dom <$> rs) : gset string) →
  coerce_rows reader rs = Some rs' →
  frame_ok (Frame (⋃ (dom <$> rs)) rs').
Proof.
  intros Haa (vs & _ & ->)%coerce_rows_inv. unfold frame_ok. cbn [rows columns].
  apply Forall_forall.
  intros r' (i & r & v & -> & Hr & _)%elem_of_lookup_zip_with.
  intros k Hk. apply elem_of_dom in Hk.
  destruct (decide (k = "award_amount")) as [->|Hne]; [done|].
  rewrite set_amount_other in Hk by done.
  apply elem_of_union_list. exists (dom r).
  split; [|by apply elem_of_dom].
  apply list_elem_of_fmap. exists r. split; [done|].
  by apply list_elem_of_lookup_2 in Hr.
Qed.

(** ** Sums *)

Lemma sum_amounts_app l1 l2 :
  sum_amounts (l1 ++ l2) = sum_amounts l1 + sum_amounts l2.
Proof.
  unfold sum_amounts. induction l1 as [|r l1 IH]; cbn; [done|].
  rewrite IH. lia.
Qed.

Lemma sum_amounts_cons r l : sum_amounts (r :: l) = amount r + sum_amounts l.
Proof. done. Qed.

Lemma series_sum_from acc (rs : list (gmap string cell)) :
  foldl (λ acc o, match o with Some (Num z) => acc + z | _ => acc end) acc
        ((λ r, r !! "award_amount") <$> rs)
  = acc + sum_amounts rs.
Proof.
  revert acc. induction rs as [|r rs IH]; intros acc.
  - unfold sum_amounts. simpl. lia.
  - rewrite fmap_cons. simpl foldl. rewrite IH, sum_amounts_cons.
    unfold amount. destruct (r !! "award_amount") as [[]|]; lia.
Qed.

(** The sum of the amount column is the sum of the rows' amounts. *)
Lemma series_sum_amounts rs :
  series_sum ((λ r, r !! "award_amount") <$> rs) = sum_amounts rs.
Proof. unfold series_sum. by rewrite series_sum_from. Qed.

Lemma total_awarded_run df w :
  total_awarded df w
  = if decide ("award_amount" ∈ columns df)
    then (Returns (sum_amounts (rows df)), w)
    else (Raises (KeyError ["award_amount"]), w).
Proof.
  unfold total_awarded. case_decide as Hcol.
  - rewrite (bind_returns _ _ _ _ _ (getitem_present _ _ _ Hcol)).
    unfold mret, prog_ret. by rewrite series_sum_amounts.
  - by rewrite (bind_raises _ _ _ _ _ (getitem_absent _ _ _ Hcol)).
Qed.

Lemma groupby_sum_run df col w :
  groupby_sum df col w
  = if decide (col ∈ columns df) then
      if decide ("award_amount" ∈ columns df)
      then (Returns (grouped col (rows df)), w)
      else (Raises (KeyError ["award_amount"]), w)
    else (Raises (KeyError [col]), w).
Proof. unfold groupby_sum. by repeat case_decide. Qed.

(** Adding a row to the groups: its key's sum grows by its amount. *)
Lemma group_add_insert col acc r :
  group_add col acc r
  = match group_key (r !! col) with
    | Some k => <[k := group_sum acc k + amount r]> acc
    | None => acc
    end.
Proof.
  unfold group_add. destruct (group_key (r !! col)) as [k|]; [|done].
  apply map_eq. intros j. rewrite lookup_partial_alter, lookup_insert.
  case_decide; [|done]. f_equal. unfold group_sum, amount.
  destruct (r !! "award_amount") as [[]|]; lia.
Qed.

Lemma group_sum_group_add col acc r k :
  group_sum (group_add col acc r) k
  = group_sum acc k
    + (if decide (group_key (r !! col) = Some k) then amount r else 0).
Proof.
  rewrite group_add_insert. destruct (group_key (r !! col)) as [k'|].
  - unfold group_sum at 1. rewrite lookup_insert.
    destruct (decide (k' = k)) as [->|Hne].
    + rewrite decide_True by done. done.
    + rewrite decide_False by congruence. unfold group_sum. lia.
  - rewrite decide_False by done. lia.
Qed.

(** Every group's sum is the sum of the amounts of its members. *)
Lemma group_sum_foldl col acc rs k :
  group_sum (foldl (group_add col) acc rs) k
  = group_sum acc k + sum_amounts (members col k rs).
Proof.
  revert acc. induction rs as [|r rs IH]; intros acc.
  - unfold members, sum_amounts. cbn. lia.
  - cbn [foldl]. rewrite IH, group_sum_group_add.
    unfold members. rewrite filter_cons.
    case_decide; [rewrite sum_amounts_cons|]; lia.
Qed.

Lemma sum_of_groups_insert (m : gmap cell Z) k v :
  sum_of_groups (<[k := v]> m) = sum_of_groups m - group_sum m k + v.
Proof.
  unfold sum_of_groups, group_sum.
  destruct (m !! k) as [x|] eqn:Hk; cbn.
  - rewrite <- insert_delete_eq.
    rewrite map_fold_insert_L; [|intros; lia|by rewrite lookup_delete_eq].
    rewrite (map_fold_delete_L _ _ k x m); [lia|intros; lia|done].
  - rewrite map_fold_insert_L; [lia|intros; lia|done].
Qed.

Lemma sum_of_groups_group_add col acc r :
  sum_of_groups (group_add col acc r)
  = sum_of_groups acc
    + (if decide (group_key (r !! col) = None) then 0 else amount r).
Proof.
  rewrite group_add_insert. destruct (group_key (r !! col)) as [k|].
  - rewrite sum_of_groups_insert, decide_False by done. lia.
  - rewrite decide_True by done. lia.
Qed.

Lemma sum_of_groups_foldl col acc rs :
  sum_of_groups (foldl (group_add col) acc rs) + sum_amounts (ungrouped col rs)
  = sum_of_groups acc + sum_amounts rs.
Proof.
  revert acc. induction rs as [|r rs IH]; intros acc.
  - cbn. lia.
  - cbn [foldl]. unfold ungrouped in *. rewrite filter_cons, sum_amounts_cons.
    specialize (IH (group_add col acc r)).
    rewrite sum_of_groups_group_add in IH.
    case_decide; [rewrite sum_amounts_cons|]; lia.
Qed.

Lemma sum_of_groups_empty : sum_of_groups ∅ = 0.
Proof. unfold sum_of_groups. by rewrite map_fold_empty. Qed.

(** A frame that left lines 51 to 58 has the amount column, and the
    world is as it was. *)
Lemma prepare_returns reader data af pf w df w' :
  prepare reader data af pf w = (Returns df, w') →
  "award_amount" ∈ columns df ∧ w' = w.
Proof.
  by intros (? & ? & ? & _ & _ & _ & _ & _ & Haa & _ & _ & ->)%prepare_inv.
Qed.

(** The amounts line 52 left are within the exact range, and so are
    those of every selection of its rows. *)
Lemma amount_entry_set_amount r v : amount_entry (set_amount r v) = v.
Proof. unfold amount_entry. rewrite set_amount_amount. by destruct v. Qed.

Lemma amount_entries_coerced rs vs :
  length vs = length rs →
  amount_entry <$> zip_with set_amount rs vs = vs.
Proof.
  revert vs. induction rs as [|r rs IH]; intros [|v vs] Hlen; try done.
  cbn. rewrite amount_entry_set_amount. f_equal. apply IH.
  cbn in Hlen. lia.
Qed.

Lemma to_numeric_values_exact reader s vs :
  to_numeric_values reader s = Some vs →
  (abs_sum vs ≤ 2 ^ 53)%Z ∨ (Forall is_Some vs ∧ (abs_sum vs < 2 ^ 63)%Z).
Proof.
  unfold to_numeric_values. intros H.
  destruct (mapM (to_numeric_cell reader) s) as [rs|]; [|done]. cbn in H.
  destruct (mapM as_int64 rs) as [zs|].
  - case_match eqn:Hlt; [|done]. injection H as <-. right. split.
    + apply Forall_forall. intros ? (z & -> & _)%list_elem_of_fmap. eauto.
    + by apply Z.ltb_lt.
  - destruct (mapM as_float64 rs) as [vs'|]; [|done]. cbn in H.
    case_match eqn:Hle; [|done]. injection H as <-. left.
    by apply Z.leb_le.
Qed.

Lemma abs_sum_nonneg l : (0 ≤ abs_sum l)%Z.
Proof.
  induction l as [|o l IH]; [done|].
  change (0 ≤ Z.abs (default 0 o) + abs_sum l)%Z. lia.
Qed.

Lemma abs_sum_cons o l : abs_sum (o :: l) = (Z.abs (default 0 o) + abs_sum l)%Z.
Proof. done. Qed.

Lemma abs_sum_filter (P : gmap string cell → Prop) `{!∀ r, Decision (P r)} rs :
  (abs_sum (amount_entry <$> filter P rs) ≤ abs_sum (amount_entry <$> rs))%Z.
Proof.
  induction rs as [|r rs IH]; [done|].
  rewrite filter_cons.
  pose proof (abs_sum_nonneg (amount_entry <$> rs)).
  case_decide; rewrite !fmap_cons, !abs_sum_cons; lia.
Qed.

Lemma prepared_amounts_exact reader data af pf w df w' :
  prepare reader data af pf w = (Returns df, w') →
  exact_amounts (rows df).
Proof.
  intros (items & rs & rs' & _ & _ & Hco & _ & Hrows & _)%prepare_inv.
  unfold exact_amounts. rewrite Hrows.
  pose proof (abs_sum_filter (keeps af pf) rs') as Hle.
  unfold coerce_rows in Hco.
  destruct (to_numeric_values reader _) as [vs|] eqn:Hvs; [|done].
  injection Hco as <-.
  pose proof (to_numeric_values_length _ _ _ Hvs) as Hlen.
  rewrite length_fmap in Hlen.
  rewrite amount_entries_coerced in Hle by done.
  apply to_numeric_values_exact in Hvs as [Hvs|[Hall Hvs]]; [left; lia|].
  right. split; [|lia].
  apply Forall_fmap, Forall_forall. intros r [_ Hr]%list_elem_of_filter.
  apply elem_of_lookup_zip_with in Hr as (i & r0 & v & -> & _ & Hv).
  unfold compose. rewrite amount_entry_set_amount.
  rewrite Forall_forall in Hall. apply Hall.
  by apply list_elem_of_lookup_2 in Hv.
Qed.

(** Within the exact range the machine sums are the integer sum, in
    whatever order the amounts are added. *)
Lemma int64_sum_from acc (l : list Z) :
  (Z.abs acc + abs_sum (Some <$> l) < 2 ^ 63)%Z →
  foldl (λ acc z, wrap_int64 (acc + z)) acc l = (acc + foldr Z.add 0 l)%Z.
Proof.
  revert acc. induction l as [|z l IH]; intros acc Hb; cbn [foldl foldr].
  - lia.
  - rewrite fmap_cons, abs_sum_cons in Hb.
    change (default 0 (Some z)) with z in Hb.
    pose proof (abs_sum_nonneg (Some <$> l)).
    assert (Hw : wrap_int64 (acc + z) = (acc + z)%Z).
    { unfold wrap_int64.
      assert (H64 : (2 ^ 64 = 2 * 2 ^ 63)%Z) by reflexivity.
      rewrite Z.mod_small; lia. }
    rewrite Hw, IH; lia.
Qed.

Lemma float64_sum_from acc (l : list Z) :
  (Z.abs acc + abs_sum (Some <$> l) ≤ 2 ^ 53)%Z →
  foldl (λ acc z, round_binary64 (acc + z)) acc l = (acc + foldr Z.add 0 l)%Z.
Proof.
  revert acc. induction l as [|z l IH]; intros acc Hb; cbn [foldl foldr].
  - lia.
  - rewrite fmap_cons, abs_sum_cons in Hb.
    change (default 0 (Some z)) with z in Hb.
    pose proof (abs_sum_nonneg (Some <$> l)).
    assert (Hr : round_binary64 (acc + z) = (acc + z)%Z).
    { unfold round_binary64. case_match eqn:Hle; [done|].
      apply Z.leb_gt in Hle. lia. }
    rewrite Hr, IH; lia.
Qed.

Lemma abs_sum_omap (rs : list (gmap string cell)) :
  abs_sum (Some <$> omap amount_entry rs) = abs_sum (amount_entry <$> rs).
Proof.
  induction rs as [|r rs IH]; [done|]. cbn [omap list_omap].
  rewrite fmap_cons, abs_sum_cons, <- IH.
  destruct (amount_entry r) as [z|]; [by rewrite fmap_cons, abs_sum_cons|].
  change (default 0 None) with 0%Z. lia.
Qed.

Lemma sum_omap (rs : list (gmap string cell)) :
  foldr Z.add 0 (omap amount_entry rs) = sum_amounts rs.
Proof.
  induction rs as [|r rs IH]; [done|]. cbn [omap list_omap].
  rewrite sum_amounts_cons, <- IH. unfold amount, amount_entry.
  destruct (r !! "award_amount") as [[]|]; cbn; lia.
Qed.

Lemma abs_sum_Permutation (l l' : list Z) :
  l ≡ₚ l' → abs_sum (Some <$> l) = abs_sum (Some <$> l').
Proof.
  induction 1 as [|x l l' _ IH|x y l|l1 l2 l3 _ IH1 _ IH2];
    rewrite ?fmap_cons, ?abs_sum_cons; try done;
    change (default 0 (Some ?z)) with z; lia.
Qed.

Lemma sum_Permutation (l l' : list Z) :
  l ≡ₚ l' → foldr Z.add 0 l = foldr Z.add 0 l'.
Proof.
  induction 1 as [|x l l' _ IH|x y l|l1 l2 l3 _ IH1 _ IH2]; cbn; lia.
Qed.

Lemma machine_sums_exact (rs : list (gmap string cell)) (l : list Z) :
  l ≡ₚ omap amount_entry rs →
  ((abs_sum (amount_entry <$> rs) ≤ 2 ^ 53)%Z → float64_sum l = sum_amounts rs)
  ∧ ((abs_sum (amount_entry <$> rs) < 2 ^ 63)%Z → int64_sum l = sum_amounts rs).
Proof.
  intros Hl. rewrite <- abs_sum_omap, <- (abs_sum_Permutation _ _ Hl).
  rewrite <- sum_omap, <- (sum_Permutation _ _ Hl).
  unfold float64_sum, int64_sum. split; intros Hb.
  - rewrite float64_sum_from; lia.
  - rewrite int64_sum_from; lia.
Qed.

(** An entry in which line 52 finds nothing numeric is NaN in the
    numeric column. *)
Lemma to_numeric_values_nan reader s vs i o :
  to_numeric_values reader s = Some vs →
  s !! i = Some o →
  to_numeric_cell reader o = Some NotNumeric →
  vs !! i = Some None.
Proof.
  unfold to_numeric_values. intros H Hi Ho.
  destruct (mapM (to_numeric_cell reader) s) as [rs|] eqn:Hrs; [|done].
  cbn in H. apply mapM_Some in Hrs.
  destruct (Forall2_lookup_l _ _ _ _ _ Hrs Hi) as (x & Hx & Hox).
  assert (x = NotNumeric) as -> by congruence.
  destruct (mapM as_int64 rs) as [zs|] eqn:Hzs.
  - apply mapM_Some in Hzs.
    by destruct (Forall2_lookup_l _ _ _ _ _ Hzs Hx) as (? & _ & ?).
  - destruct (mapM as_float64 rs) as [vs'|] eqn:Hvs'; [|done]. cbn in H.
    case_match; [|done]. injection H as <-. apply mapM_Some in Hvs'.
    destruct (Forall2_lookup_l _ _ _ _ _ Hvs' Hx) as (y & Hy & Hxy).
    cbn in Hxy. congruence.
Qed.

(** C5, as the code has it: on the filtered set, the total is the sum
    of the per-group sums plus the amounts of the rows that the
    grouping leaves out because their key is null or NaN; the two agree
    when no row has such a key.  The amounts of the filtered set are
    within the exact range: the total and the group sums are those of
    the program, in [int64] or [float64], not of an idealised
    arithmetic. *)
Theorem total_is_groups_plus_ungrouped reader data af pf w df w' col :
  prepare reader data af pf w = (Returns df, w') →
  col ∈ columns df →
  ∃ total summary,
    total_awarded df w' = (Returns total, w')
    ∧ groupby_sum df col w' = (Returns summary, w')
    ∧ exact_amounts (rows df)
    ∧ total = sum_of_groups summary + sum_amounts (ungrouped col (rows df))
    ∧ (ungrouped col (rows df) = [] → total = sum_of_groups summary).
Proof.
  intros Hrun Hcol.
  pose proof (prepared_amounts_exact _ _ _ _ _ _ _ Hrun) as Hexact.
  apply prepare_returns in Hrun as [Haa _].
  exists (sum_amounts (rows df)), (grouped col (rows df)).
  rewrite total_awarded_run, groupby_sum_run.
  rewrite !decide_True by done.
  pose proof (sum_of_groups_foldl col ∅ (rows df)) as Hsum.
  rewrite sum_of_groups_empty in Hsum. fold (grouped col (rows df)) in Hsum.
  split; [done|]. split; [done|]. split; [done|]. split; [lia|].
  intros Hnone. rewrite Hnone in Hsum. cbn in Hsum. lia.
Qed.

Lemma total_is_groups_plus_ungrouped_witness :
  ∃ total summary,
    total_awarded scenario_A fresh = (Returns total, fresh)
    ∧ groupby_sum scenario_A "state" fresh = (Returns summary, fresh)
    ∧ exact_amounts (rows scenario_A)
    ∧ total = sum_of_groups summary
              + sum_amounts (ungrouped "state" (rows scenario_A))
    ∧ (ungrouped "state" (rows scenario_A) = [] → total = sum_of_groups summary).
Proof.
  apply (total_is_groups_plus_ungrouped read_decimal
           (JList [award_DOD; award_NSF]) [] [] fresh scenario_A fresh "state").
  - vm_compute. reflexivity.
  - apply (bool_decide_unpack _). vm_compute. exact I.
Defined.

(** C5 as stated fails: an award whose state is null is in the total
    and in no group of the summary by state. *)
Lemma null_state_breaks_conservation :
  ∃ df,
    prepare read_decimal (JList [award_DOD; award_null_state]) [] [] fresh
    = (Returns df, fresh)
    ∧ total_awarded df fresh = (Returns 125000, fresh)
    ∧ groupby_sum df "state" fresh = (Returns {[ Str "CA" := 50000 ]}, fresh)
    ∧ sum_of_groups {[ Str "CA" := 50000 ]} = 50000
    ∧ 125000 ≠ sum_of_groups {[ Str "CA" := 50000 ]}.
Proof.
  exists (Frame (list_to_set detail_columns) [row award_DOD; row award_null_state]).
  split; [vm_compute; reflexivity|].
  split; [vm_compute; reflexivity|].
  split; [vm_compute; reflexivity|].
  split; [vm_compute; reflexivity|].
  vm_compute. discriminate.
Qed.

(** C4, as the code has it: a record that the filters keep and in
    whose [award_amount] line 52 finds nothing numeric is a row of the
    filtered frame, with NaN for amount.  It is counted among the
    projects, and the total and every group sum are what they are over
    the other rows of that frame.  The sums are the sums of the
    program: the amounts of the frame are within the exact range. *)
Theorem nan_amount_counts_but_adds_nothing
    reader data af pf w df w' raw_df i raw col :
  prepare reader data af pf w = (Returns df, w') →
  pd_DataFrame data w = (Returns raw_df, w) →
  rows raw_df !! i = Some raw →
  to_numeric_cell reader (raw !! "award_amount") = Some NotNumeric →
  keeps af pf raw →
  col ∈ columns df →
  ∃ A B,
    rows df = A ++ set_amount raw None :: B
    ∧ exact_amounts (rows df)
    ∧ let df' := Frame (columns df) (A ++ B) in
      total_projects df = S (total_projects df')
      ∧ (∃ total, total_awarded df w' = (Returns total, w')
                  ∧ total_awarded df' w' = (Returns total, w'))
      ∧ (∃ s s', groupby_sum df col w' = (Returns s, w')
                 ∧ groupby_sum df' col w' = (Returns s', w')
                 ∧ ∀ k, group_sum s k = group_sum s' k).
Proof.
  intros Hrun Hraw Hi Hnan Hkeep Hcol.
  pose proof (prepared_amounts_exact _ _ _ _ _ _ _ Hrun) as Hexact.
  destruct (prepare_inv _ _ _ _ _ _ _ Hrun)
    as (items & rs & rs' & -> & Hrs & Hco & _ & Hrows & Haa & _ & _ & ->).
  unfold pd_DataFrame in Hraw. rewrite Hrs in Hraw.
  injection Hraw as <-. cbn [rows] in Hi.
  unfold coerce_rows in Hco.
  destruct (to_numeric_values reader _) as [vs|] eqn:Hvs; [|done].
  injection Hco as <-.
  assert (Hv : vs !! i = Some None).
  { apply (to_numeric_values_nan _ _ _ _ (raw !! "award_amount") Hvs); [|done].
    by rewrite list_lookup_fmap, Hi. }
  set (r := set_amount raw None) in *.
  assert (Hr : zip_with set_amount rs vs !! i = Some r).
  { by rewrite lookup_zip_with, Hi, Hv. }
  assert (Hamount : amount r = 0).
  { unfold amount, r. by rewrite set_amount_amount. }
  rewrite <- (take_drop_middle _ _ _ Hr) in Hrows.
  rewrite filter_app, filter_cons, decide_True in Hrows
    by (by apply keeps_set_amount).
  eexists _, _. split; [exact Hrows|]. split; [done|].
  set (A := filter _ (take i _)) in *. set (B := filter _ (drop (S i) _)) in *.
  cbn zeta. split; [|split].
  - unfold total_projects. rewrite Hrows. cbn. rewrite !length_app. cbn. lia.
  - exists (sum_amounts (A ++ B)). rewrite !total_awarded_run.
    cbn [columns rows]. rewrite !decide_True by done. split; [|done].
    rewrite Hrows. do 2 f_equal.
    rewrite !sum_amounts_app, sum_amounts_cons. lia.
  - exists (grouped col (A ++ r :: B)), (grouped col (A ++ B)).
    rewrite !groupby_sum_run. cbn [columns rows].
    rewrite !decide_True by done. rewrite Hrows.
    split; [done|]. split; [done|]. intros k. unfold grouped.
    rewrite !group_sum_foldl. f_equal. unfold members.
    rewrite !filter_app, filter_cons, !sum_amounts_app.
    case_decide; [rewrite sum_amounts_cons|]; lia.
Qed.

Lemma nan_amount_counts_but_adds_nothing_witness :
  ∃ A B,
    [row award_DOD; row award_no_amount; row award_NSF]
    = A ++ set_amount (raw_row award_no_amount) None :: B
    ∧ total_projects (Frame (list_to_set detail_columns)
                            [row award_DOD; row award_no_amount; row award_NSF])
      = S (total_projects (Frame (list_to_set detail_columns) (A ++ B))).
Proof.
  destruct (nan_amount_counts_but_adds_nothing read_decimal
              (JList [award_DOD; award_no_amount; award_NSF]) [] [] fresh
              (Frame (list_to_set detail_columns)
                     [row award_DOD; row award_no_amount; row award_NSF])
              fresh
              (Frame (list_to_set detail_columns)
                     [raw_row award_DOD; raw_row award_no_amount;
                      raw_row award_NSF])
              1%nat (raw_row award_no_amount) "state")
    as (A & B & Hrows & _ & Hcount & _).
  - vm_compute. reflexivity.
  - vm_compute. reflexivity.
  - reflexivity.
  - vm_compute. reflexivity.
  - apply (bool_decide_unpack _). vm_compute. exact I.
  - apply (bool_decide_unpack _). vm_compute. exact I.
  - exists A, B. exact (conj Hrows Hcount).
Defined.

(** C4 as stated fails: the record whose amount is the text [N/A] does
    not leave the total as it is.  With NaN in it the amount column is
    [float64], and the amount [2^53 + 1] of the other record is rounded
    to [2^53]; without that record the column is [int64] and the total
    is the amount itself. *)
Lemma unparseable_amount_changes_total :
  page (script read_decimal (net_answers (JList [award_large]))
               "ExampleCompany" [] [] fresh).2 !! 2%nat
  = Some (St_metric "Total Awarded ($)" (Dollars 9007199254740993))
  ∧ page (script read_decimal
                 (net_answers (JList [award_large; award_no_amount]))
                 "ExampleCompany" [] [] fresh).2 !! 2%nat
    = Some (St_metric "Total Awarded ($)" (Dollars 9007199254740992))
  ∧ page (script read_decimal
                 (net_answers (JList [award_large; award_no_amount]))
                 "ExampleCompany" [] [] fresh).2 !! 3%nat
    = Some (St_metric "Total Funded Projects" (Count 2)).
Proof. split; [|split]; vm_compute; reflexivity. Qed.

(** ** Rendering *)

(** Lines 63 to 106 as one function of the frame: what is shown, and
    where the run stops when a column is missing. *)
Lemma render_run df w :
  render df w =
  if decide ("award_amount" ∈ columns df) then
    let p1 := (page w ++
      [St_metric "Total Awarded ($)" (Dollars (sum_amounts (rows df)));
       St_metric "Total Funded Projects" (Count (total_projects df));
       St_subheader "Award Distribution by State"]
      ++ (if decide ("state" ∈ columns df)
          then [St_plotly_chart (Choropleth (grouped "state" (rows df)))]
          else [])
      ++ [St_subheader "Award Breakdown by Agency"]) in
    if decide ("agency" ∈ columns df) then
      let p2 := (p1 ++ [St_plotly_chart (Bar (grouped "agency" (rows df)));
                       St_subheader "Award Breakdown by Phase"]) in
      if decide ("phase" ∈ columns df) then
        let p3 := (p2 ++ [St_plotly_chart (Pie (grouped "phase" (rows df)));
                         St_subheader "Award Details"]) in
        match filter (λ c, c ∉ columns df) detail_columns with
        | [] =>
            (Returns (),
             set_page (p3 ++ [St_dataframe
                (Frame (list_to_set detail_columns)
                       (filter (λ kv, kv.1 ∈ detail_columns) <$> rows df))]) w)
        | missing => (Raises (KeyError missing), set_page p3 w)
        end
      else (Raises (KeyError ["phase"]), set_page p2 w)
    else (Raises (KeyError ["agency"]), set_page p1 w)
  else (Raises (KeyError ["award_amount"]), w).
Proof.
  unfold render. rewrite bind_run, total_awarded_run.
  case_decide as Haa; [|done].
  unfold st_metric, st_subheader, st_plotly_chart, st_dataframe, getitems,
    groupby_sum, grouped.
  generalize (filter (λ c, c ∉ columns df) detail_columns).
  generalize (filter (λ kv : string * cell, kv.1 ∈ detail_columns) <$> rows df).
  intros table missing.
  unfold mbind, prog_bind, mret, prog_ret, raise, emit, set_page.
  cbn [page cache wire].
  rewrite !(decide_True (P := "award_amount" ∈ columns df)) by done.
  destruct (decide ("state" ∈ columns df));
  (destruct (decide ("agency" ∈ columns df));
   [destruct (decide ("phase" ∈ columns df));
    [destruct missing|]|]);
  cbn [page cache wire]; rewrite <- ?app_assoc; try reflexivity.
Qed.

(** C8, as the code has it: on a filtered set with no rows whose frame
    has the seven columns of the detail table, the aggregation runs
    through: the total is zero, the count is zero, and each grouped
    summary is empty. *)
Theorem empty_filtered_set_aggregates_to_zero df w :
  rows df = [] →
  list_to_set detail_columns ⊆ columns df →
  total_awarded df w = (Returns 0, w)
  ∧ total_projects df = 0%nat
  ∧ (∀ col, col ∈ ["state"; "agency"; "phase"] →
       groupby_sum df col w = (Returns ∅, w))
  ∧ render df w
    = (Returns (),
       set_page (page w ++
         [St_metric "Total Awarded ($)" (Dollars 0);
          St_metric "Total Funded Projects" (Count 0);
          St_subheader "Award Distribution by State";
          St_plotly_chart (Choropleth ∅);
          St_subheader "Award Breakdown by Agency";
          St_plotly_chart (Bar ∅);
          St_subheader "Award Breakdown by Phase";
          St_plotly_chart (Pie ∅);
          St_subheader "Award Details";
          St_dataframe (Frame (list_to_set detail_columns) [])]) w).
Proof.
  intros Hrows Hcols.
  assert (Hin : ∀ c, c ∈ detail_columns → c ∈ columns df).
  { intros c Hc. apply Hcols. by apply elem_of_list_to_set. }
  assert (Haa : "award_amount" ∈ columns df) by (apply Hin; repeat constructor).
  assert (Hst : "state" ∈ columns df) by (apply Hin; repeat constructor).
  assert (Hag : "agency" ∈ columns df) by (apply Hin; repeat constructor).
  assert (Hph : "phase" ∈ columns df) by (apply Hin; repeat constructor).
  split; [|split; [|split]].
  - rewrite total_awarded_run, decide_True, Hrows by done. done.
  - unfold total_projects. by rewrite Hrows.
  - intros col Hcol. rewrite groupby_sum_run, Hrows.
    rewrite !decide_True; [done|done|].
    rewrite !elem_of_cons, elem_of_nil in Hcol.
    by destruct Hcol as [->|[->|[->|[]]]].
  - rewrite render_run. rewrite !decide_True by done.
    rewrite filter_none; [|intros c Hc Hnot; by apply Hnot, Hin].
    unfold total_projects. rewrite Hrows. cbn.
    by rewrite <- !app_assoc.
Qed.

Lemma empty_filtered_set_aggregates_to_zero_witness :
  prepare read_decimal (JList [award_DOD; award_NSF]) ["NASA"] [] fresh
  = (Returns (Frame (list_to_set detail_columns) []), fresh)
  ∧ total_awarded (Frame (list_to_set detail_columns) []) fresh
    = (Returns 0, fresh)
  ∧ total_projects (Frame (list_to_set detail_columns) []) = 0%nat.
Proof.
  split; [vm_compute; reflexivity|].
  destruct (empty_filtered_set_aggregates_to_zero
              (Frame (list_to_set detail_columns) []) fresh)
    as (Htotal & Hcount & _).
  - reflexivity.
  - simpl. reflexivity.
  - exact (conj Htotal Hcount).
Defined.

(** C8 as stated fails: an empty filtered set is not always aggregated.
    When no input record carries [state], the frame that a filter
    empties has no such column, and the run ends in [KeyError] at the
    detail table.  An empty input is not aggregated at all: the script
    shows the warning and no metric; lines 51 to 106, run on it, would
    end in [KeyError] at line 52. *)
Lemma empty_set_is_not_always_aggregated :
  (∃ df,
     prepare read_decimal (JList [award_without_state]) ["NASA"] [] fresh
     = (Returns df, fresh)
     ∧ rows df = []
     ∧ (render df fresh).1 = Raises (KeyError ["state"]))
  ∧ script read_decimal (net_answers (JList [])) "ExampleCompany" [] [] fresh
    = (Returns (),
       World {[ "ExampleCompany" := (JList [], []) ]}
         [(awards_url "ExampleCompany", inr (Decoded (JList [])))]
         [St_title "SBIR Awards Dashboard";
          St_markdown "Analyze SBIR grant awards across agencies and geographies.";
          St_warning "No data found. Please check the company name or try a different query."])
  ∧ dashboard read_decimal (JList []) [] [] fresh
    = (Raises (KeyError ["award_amount"]), fresh).
Proof.
  split; [|split; vm_compute; reflexivity].
  exists (Frame (list_to_set
                   ["agency"; "phase"; "program"; "award_amount"; "award_year"; "city"])
                []).
  repeat split; vm_compute; reflexivity.
Qed.

(** ** Missing columns *)

Lemma not_in_columns (rs : list (gmap string cell)) col :
  col ∉ (⋃ (dom <$> rs) : gset string) ↔ ∀ r, r ∈ rs → r !! col = None.
Proof.
  rewrite elem_of_union_list. split.
  - intros H r Hr. apply not_elem_of_dom. intros Hd. apply H.
    exists (dom r). split; [|done]. apply list_elem_of_fmap. eauto.
  - intros H (X & HX & Hc). apply list_elem_of_fmap in HX as (r & -> & Hr).
    apply elem_of_dom in Hc. rewrite (H r Hr) in Hc. by destruct Hc.
Qed.

(** A first call whose body decodes stores and returns the value picked
    by shape, and shows nothing. *)
Lemma cached_fetch_decoded net name w data :
  cache w !! name = None →
  net (awards_url name) = inr (Decoded data) →
  cached_fetch_sbir_awards net name w
  = (let v := if is_list data then data
              else default (JList []) (dict_results data) in
     (Returns v,
      World (<[name := (v, [])]> (cache w))
            (wire w ++ [(awards_url name, inr (Decoded data))])
            (page w))).
Proof.
  intros Hmiss Hnet. unfold cached_fetch_sbir_awards.
  erewrite cache_miss_returns; [|done|by apply fetch_decoded].
  cbn. by rewrite app_nil_r.
Qed.

Lemma no_warning_app (p q : list element) :
  filter is_warning q = [] →
  filter is_warning (p ++ q) = filter is_warning p.
Proof. intros Hq. by rewrite filter_app, Hq, app_nil_r. Qed.

(** Storing the columns changes no key of a row. *)
Lemma rows_of_json_inv items rs :
  rows_of_json items = Some rs →
  ∃ rs0, mapM row_of_json items = Some rs0
         ∧ Forall2 (λ r0 r, ∀ c, r !! c = None ↔ r0 !! c = None) rs0 rs.
Proof.
  unfold rows_of_json. intros H.
  destruct (mapM row_of_json items) as [rs0|]; [|done].
  injection H as <-. exists rs0. split; [done|].
  unfold store_columns. apply Forall2_fmap_r, Forall_Forall2_diag, Forall_true.
  intros r c. rewrite map_lookup_imap. by destruct (r !! c).
Qed.

Lemma rows_of_json_flat items :
  is_Some (rows_of_json items) ↔ Forall flat_record items.
Proof.
  unfold rows_of_json. rewrite fmap_is_Some, mapM_is_Some. done.
Qed.

(** A field that no record has is no column of the frame, and the
    other way round. *)
Lemma lacks_not_in_columns items rs col :
  rows_of_json items = Some rs →
  col ∉ (⋃ (dom <$> rs) : gset string) ↔ Forall (lacks col) items.
Proof.
  intros (rs0 & Hrs0 & Hsame)%rows_of_json_inv.
  apply mapM_Some in Hrs0. rewrite not_in_columns.
  assert (Hrel : Forall2 (λ item r, r !! col = None ↔ lacks col item) items rs).
  { revert rs Hsame. induction Hrs0 as [|item r0 items rs0 Hitem _ IH];
      intros rs Hsame; inversion Hsame as [|? r ? rs' Hr Hrest]; subst;
      constructor; [|by apply IH].
    rewrite Hr. destruct item as [| | | | |d|]; try done. cbn in Hitem.
    case_bool_decide as Hflat; [|done]. injection Hitem as <-.
    rewrite lookup_omap. cbn. split.
    - destruct (d !! col) as [v|] eqn:Hv; [|done]. cbn.
      destruct (Hflat col v Hv) as [c Hc]. by rewrite Hc.
    - by intros ->. }
  clear Hrs0 Hsame. induction Hrel as [|item r items rs Hone _ IH].
  - split; [constructor|]. intros _ r Hr. by apply elem_of_nil in Hr.
  - rewrite Forall_cons, <- Hone, <- IH. split.
    + intros H. split; [apply H; by left|]. intros r' Hr'. apply H. by right.
    + intros [H1 H2] r' [->|Hr']%elem_of_cons; [done|by apply H2].
Qed.

(** C10: when the fetch returns a non-empty list of records, from the
    memo or from a response of either shape, and one of the seven
    fields of the detail table is in none of them, the run ends in a
    [KeyError].  For [award_amount] it is raised at line 52, whatever
    the scalar values of the records.  For any field, a run that the
    embedding follows ends in a [KeyError] naming fields that no
    record has, and does not show the no-data warning. *)
Theorem missing_field_raises_KeyError reader net name af pf w items w1 col :
  cached_fetch_sbir_awards net name (header_shown w)
  = (Returns (JList items), w1) →
  items ≠ [] →
  col ∈ detail_columns →
  Forall (lacks col) items →
  (col = "award_amount" → Forall flat_record items →
   script reader net name af pf w = (Raises (KeyError ["award_amount"]), w1))
  ∧ ((script reader net name af pf w).1 ≠ OutsideModel →
     ∃ labels,
       (script reader net name af pf w).1 = Raises (KeyError labels)
       ∧ labels ≠ []
       ∧ Forall (λ l, l ∈ detail_columns ∧ Forall (lacks l) items) labels
       ∧ filter is_warning (page (script reader net name af pf w).2)
         = filter is_warning (page w1)).
Proof.
  intros Hfetch Hitems Hcol Habsent.
  rewrite script_run. cbn zeta. fold (header_shown w). rewrite Hfetch.
  assert (Htruthy : truthy (JList items) = true) by (by destruct items).
  rewrite Htruthy. cbn [negb].
  unfold dashboard. rewrite bind_run, prepare_run.
  destruct (rows_of_json items) as [rs|] eqn:Hrs.
  2:{ split; [|done]. intros _ Hflat. exfalso.
      apply rows_of_json_flat in Hflat as [? ?]. congruence. }
  cbn zeta.
  apply (lacks_not_in_columns _ _ _ Hrs) in Habsent.
  set (cols := ⋃ (dom <$> rs) : gset string) in *.
  assert (Hlabel : ∀ l, l ∉ cols → Forall (lacks l) items).
  { intros l Hl. by apply (lacks_not_in_columns _ _ _ Hrs). }
  assert (Hin : ∀ l, l ∈ ["agency"; "phase"; "award_amount"]
                     → l ∈ detail_columns).
  { intros l Hl. unfold detail_columns. set_unfold. tauto. }
  assert (Hone : ∀ l (o : outcome () * world),
    l ∈ ["agency"; "phase"; "award_amount"] → l ∉ cols →
    o.1 = Raises (KeyError [l]) →
    filter is_warning (page o.2) = filter is_warning (page w1) →
    ∃ labels,
      o.1 = Raises (KeyError labels)
      ∧ labels ≠ []
      ∧ Forall (λ l, l ∈ detail_columns ∧ Forall (lacks l) items) labels
      ∧ filter is_warning (page o.2) = filter is_warning (page w1)).
  { intros l o Hl Hnot Ho Hpage. exists [l]. split; [done|]. split; [done|].
    split; [|done]. apply Forall_singleton. split; [by apply Hin|by apply Hlabel]. }
  destruct (decide ("award_amount" ∈ cols)) as [Haa|Haa].
  2:{ split; [done|]. intros _. apply (Hone "award_amount"); [|done..].
      repeat constructor. }
  split; [by intros ->|]. intros Hmodel.
  destruct (coerce_rows reader rs) as [rs'|]; [|done].
  destruct (decide (af ≠ [] ∧ "agency" ∉ cols)) as [[_ Hag]|_].
  { apply (Hone "agency"); [|done..]. repeat constructor. }
  destruct (decide (pf ≠ [] ∧ "phase" ∉ cols)) as [[_ Hph]|_].
  { apply (Hone "phase"); [|done..]. repeat constructor. }
  clear Hmodel. rewrite render_run. cbn [columns rows].
  rewrite (decide_True (P := "award_amount" ∈ cols)) by done. cbn zeta.
  destruct (decide ("agency" ∈ cols)) as [Hag|Hag].
  2:{ apply (Hone "agency"); [repeat constructor|done|done|].
      cbn [page set_page snd]. rewrite no_warning_app; [done|].
      destruct (decide ("state" ∈ cols)); reflexivity. }
  destruct (decide ("phase" ∈ cols)) as [Hph|Hph].
  2:{ apply (Hone "phase"); [repeat constructor|done|done|].
      cbn [page set_page snd]. rewrite <- !app_assoc.
      rewrite no_warning_app; [done|].
      destruct (decide ("state" ∈ cols)); reflexivity. }
  destruct (filter (λ c, c ∉ cols) detail_columns) as [|l0 missing] eqn:Hmissing.
  { exfalso. eapply (filter_nil_not_elem_of _ _ col Hmissing); done. }
  exists (l0 :: missing). split; [done|]. split; [done|]. split.
  - apply Forall_forall. intros l Hl. rewrite <- Hmissing in Hl.
    apply list_elem_of_filter in Hl as [Hl1 Hl2]. split; [done|by apply Hlabel].
  - cbn [page set_page snd]. rewrite <- !app_assoc.
    rewrite no_warning_app; [done|].
    destruct (decide ("state" ∈ cols)); reflexivity.
Qed.

Lemma missing_field_raises_KeyError_witness :
  (script read_decimal net_down "ExampleCompany" ["DOD"] []
     (script read_decimal
             (net_answers (JDict {[ "results" := JList [award_flagged] ]}))
             "ExampleCompany" [] [] fresh).2).1
  = Raises (KeyError ["award_amount"]).
Proof.
  destruct (missing_field_raises_KeyError read_decimal net_down
              "ExampleCompany" ["DOD"] []
              (script read_decimal
                 (net_answers (JDict {[ "results" := JList [award_flagged] ]}))
                 "ExampleCompany" [] [] fresh).2
              [award_flagged]
              (cached_fetch_sbir_awards net_down "ExampleCompany"
                 (header_shown
                    (script read_decimal
                       (net_answers (JDict {[ "results" := JList [award_flagged] ]}))
                       "ExampleCompany" [] [] fresh).2)).2
              "award_amount")
    as [Hrun _].
  - vm_compute. reflexivity.
  - discriminate.
  - apply (bool_decide_unpack _). vm_compute. exact I.
  - apply (bool_decide_unpack _). vm_compute. exact I.
  - rewrite Hrun; [reflexivity|reflexivity|].
    apply (bool_decide_unpack _). vm_compute. exact I.
Defined.

(** * The scenarios of the specification *)

(** Scenario A: no filters; the total is 125000 over two projects, and
    the group of CA holds all of it. *)
Example scenario_A_totals :
  prepare read_decimal (JList [award_DOD; award_NSF]) [] [] fresh
  = (Returns scenario_A, fresh)
  ∧ total_awarded scenario_A fresh = (Returns 125000, fresh)
  ∧ total_projects scenario_A = 2%nat
  ∧ groupby_sum scenario_A "state" fresh
    = (Returns {[ Str "CA" := 125000 ]}, fresh).
Proof. repeat split; vm_compute; reflexivity. Qed.

(** Scenario B: only DOD selected; 50000 over one project. *)
Example scenario_B_totals :
  ∃ df,
    prepare read_decimal (JList [award_DOD; award_NSF]) ["DOD"] [] fresh
    = (Returns df, fresh)
    ∧ total_awarded df fresh = (Returns 50000, fresh)
    ∧ total_projects df = 1%nat.
Proof.
  exists (Frame (list_to_set detail_columns) [row award_DOD]).
  repeat split; vm_compute; reflexivity.
Qed.

(** Scenario D: [{"results": []}] shows the no-data warning and no
    error; nothing is aggregated. *)
Example scenario_D_no_data :
  script read_decimal net_no_results "ExampleCompany" [] [] fresh
  = (Returns (),
     World {[ "ExampleCompany" := (JList [], []) ]}
       [(awards_url "ExampleCompany",
         inr (Decoded (JDict {[ "results" := JList [] ]})))]
       [St_title "SBIR Awards Dashboard";
        St_markdown "Analyze SBIR grant awards across agencies and geographies.";
        St_warning "No data found. Please check the company name or try a different query."]).
Proof. vm_compute. reflexivity. Qed.

(** * Further properties of the script *)

(** X1: every run of the function body issues exactly one request, to
    the URL built from the name, and leaves the memo alone; it raises
    exactly when the request itself fails, with the exception of the
    request, and returns a value whenever a response came back. *)
Theorem fetch_issues_one_request net name w :
  wire (fetch_sbir_awards net name w).2
  = wire w ++ [(awards_url name, net (awards_url name))]
  ∧ cache (fetch_sbir_awards net name w).2 = cache w
  ∧ match net (awards_url name) with
    | inl e => fetch_sbir_awards net name w
               = (Raises e, set_wire (wire w ++ [(awards_url name, inl e)]) w)
    | inr _ => ∃ v, (fetch_sbir_awards net name w).1 = Returns v
    end.
Proof.
  destruct (net (awards_url name)) as [e|r] eqn:Hnet.
  - by rewrite (fetch_request_failed _ _ _ _ Hnet).
  - destruct (fetch_answered_returns net name w r Hnet) as (v & shown & ->).
    cbn. eauto.
Qed.

(** X2: what the function returns is a list, provided that the
    [results] entry of an object body, when there is one, is a list;
    the entry is handed on without a check of its own. *)
Theorem fetched_value_is_list net name w v w' :
  fetch_sbir_awards net name w = (Returns v, w') →
  (∀ d x, net (awards_url name) = inr (Decoded (JDict d)) →
          d !! "results" = Some x → is_list x = true) →
  is_list v = true.
Proof.
  intros Hrun Hresults.
  destruct (net (awards_url name)) as [e|[body why|data]] eqn:Hnet.
  - by rewrite (fetch_request_failed _ _ _ _ Hnet) in Hrun.
  - rewrite (fetch_undecodable _ _ _ _ _ Hnet) in Hrun. by injection Hrun as <- _.
  - rewrite (fetch_decoded _ _ _ _ Hnet) in Hrun. injection Hrun as <- _.
    destruct (is_list data) eqn:Hlist; [done|].
    destruct data as [| | | | |d|]; try done. cbn.
    destruct (d !! "results") as [x|] eqn:Hx; [|done]. cbn. by eapply Hresults.
Qed.

Lemma fetched_value_is_list_witness :
  is_list (JList [award_DOD]) = true.
Proof.
  apply (fetched_value_is_list
           (net_answers (JDict {[ "results" := JList [award_DOD] ]}))
           "ExampleCompany" fresh (JList [award_DOD])
           (set_wire [(awards_url "ExampleCompany",
                       inr (Decoded (JDict {[ "results" := JList [award_DOD] ]})))]
                     fresh)).
  - reflexivity.
  - intros d x Hd Hx. injection Hd as <-.
    vm_compute in Hx. by injection Hx as <-.
Defined.

(** X3: a decoding failure is memoised like any result.  After a first
    call whose body did not decode, every later call with that name,
    whatever calls were made in between and under any network, returns
    the empty list, shows the same error again and issues no request. *)
Theorem decode_failure_is_memoised net name w body why later net' :
  cache w !! name = None →
  net (awards_url name) = inr (Undecodable body why) →
  let w1 := (cached_fetch_sbir_awards net name w).2 in
  let w2 := run_calls later w1 in
  cached_fetch_sbir_awards net' name w2
  = (Returns (JList []),
     set_page (page w2 ++ [St_error ("Error parsing JSON: " +:+ why)]) w2)
  ∧ wire (cached_fetch_sbir_awards net' name w2).2 = wire w2
  ∧ wire w1 = wire w ++ [(awards_url name, inr (Undecodable body why))].
Proof.
  intros Hmiss Hnet w1 w2.
  assert (Hentry : cache w1 !! name
                   = Some (JList [], [St_error ("Error parsing JSON: " +:+ why)])
                   ∧ wire w1 = wire w ++ [(awards_url name,
                                           inr (Undecodable body why))]).
  { unfold w1, cached_fetch_sbir_awards.
    erewrite (cache_miss_returns _ _ w); [|done|by apply fetch_undecodable].
    cbn [snd page cache wire set_page]. by rewrite lookup_insert_eq. }
  destruct Hentry as [Hentry Hwire].
  assert (Hcall : cached_fetch_sbir_awards net' name w2
    = (Returns (JList []),
       set_page (page w2 ++ [St_error ("Error parsing JSON: " +:+ why)]) w2)).
  { apply cache_hit. unfold w2. by apply run_calls_keeps_entry. }
  split; [exact Hcall|]. split; [by rewrite Hcall|exact Hwire].
Qed.

Lemma decode_failure_is_memoised_witness :
  (cached_fetch_sbir_awards net_down "ExampleCompany"
     (run_calls [(net_answers (JList [award_DOD]), "OtherCompany");
                 (net_down, "ExampleCompany")]
        (cached_fetch_sbir_awards net_not_json "ExampleCompany" fresh).2)).1
  = Returns (JList []).
Proof.
  destruct (decode_failure_is_memoised net_not_json "ExampleCompany" fresh
              "not json" "Expecting value: line 1 column 1 (char 0)"
              [(net_answers (JList [award_DOD]), "OtherCompany");
               (net_down, "ExampleCompany")]
              net_down eq_refl eq_refl) as [Hcall _].
  by rewrite Hcall.
Defined.

(** X4: the no-data state.  On a first call whose response yields an
    empty (falsy) value, the run completes without an exception: it
    shows the header, the decoding error if there was one, and the
    no-data warning, and it memoises the value; no frame is built. *)
Theorem no_data_run reader net name af pf w r :
  cache w !! name = None →
  net (awards_url name) = inr r →
  match r with
  | Undecodable _ why =>
      script reader net name af pf w
      = (Returns (),
         World (<[name := (JList [], [St_error ("Error parsing JSON: " +:+ why)])]>
                  (cache w))
               (wire w ++ [(awards_url name, inr r)])
               (page w ++
                [St_title "SBIR Awards Dashboard";
                 St_markdown "Analyze SBIR grant awards across agencies and geographies.";
                 St_error ("Error parsing JSON: " +:+ why);
                 St_warning "No data found. Please check the company name or try a different query."]))
  | Decoded data =>
      let v := if is_list data then data
               else default (JList []) (dict_results data) in
      truthy v = false →
      script reader net name af pf w
      = (Returns (),
         World (<[name := (v, [])]> (cache w))
               (wire w ++ [(awards_url name, inr r)])
               (page w ++
                [St_title "SBIR Awards Dashboard";
                 St_markdown "Analyze SBIR grant awards across agencies and geographies.";
                 St_warning "No data found. Please check the company name or try a different query."]))
  end.
Proof.
  intros Hmiss Hnet. destruct r as [body why|data].
  - rewrite script_run. cbn zeta. unfold cached_fetch_sbir_awards.
    erewrite cache_miss_returns; [|done|by apply fetch_undecodable].
    cbn. unfold st_warning, emit, set_page. cbn.
    by rewrite <- !app_assoc.
  - intros v Hv. rewrite script_run. cbn zeta.
    rewrite (cached_fetch_decoded _ _ _ data) by done.
    cbn zeta. fold v. cbn iota beta. rewrite Hv. cbn.
    unfold st_warning, emit, set_page. cbn. by rewrite <- !app_assoc.
Qed.

Lemma no_data_run_witness :
  script read_decimal net_not_json "ExampleCompany" ["DOD"] [] fresh
  = (Returns (),
     World {[ "ExampleCompany" :=
                (JList [], [St_error "Error parsing JSON: Expecting value: line 1 column 1 (char 0)"]) ]}
       [(awards_url "ExampleCompany",
         inr (Undecodable "not json" "Expecting value: line 1 column 1 (char 0)"))]
       [St_title "SBIR Awards Dashboard";
        St_markdown "Analyze SBIR grant awards across agencies and geographies.";
        St_error "Error parsing JSON: Expecting value: line 1 column 1 (char 0)";
        St_warning "No data found. Please check the company name or try a different query."]).
Proof.
  exact (no_data_run read_decimal net_not_json "ExampleCompany" ["DOD"] [] fresh
           (Undecodable "not json" "Expecting value: line 1 column 1 (char 0)")
           eq_refl eq_refl).
Defined.

Lemma dom_grouped_from col acc (rs : list (gmap string cell)) k :
  k ∈ dom (foldl (group_add col) acc rs)
  ↔ k ∈ dom acc ∨ ∃ r, r ∈ rs ∧ group_key (r !! col) = Some k.
Proof.
  revert acc. induction rs as [|r rs IH]; intros acc.
  - cbn. split; [by left|]. intros [?|(r & Hr & _)]; [done|]. by apply elem_of_nil in Hr.
  - cbn [foldl]. rewrite IH, group_add_insert.
    destruct (group_key (r !! col)) as [k'|] eqn:Hk.
    + rewrite dom_insert_L, elem_of_union, elem_of_singleton. split.
      * intros [[->|?]|(r' & Hr' & Hk')].
        -- right. exists r. split; [left|done].
        -- by left.
        -- right. exists r'. split; [by right|done].
      * intros [?|(r' & Hr' & Hk')]; [by left; right|].
        apply elem_of_cons in Hr' as [->|Hr'].
        -- left; left. congruence.
        -- right. eauto.
    + split.
      * intros [?|(r' & Hr' & Hk')]; [by left|]. right. exists r'. split; [by right|done].
      * intros [?|(r' & Hr' & Hk')]; [by left|].
        apply elem_of_cons in Hr' as [->|Hr']; [congruence|]. right. eauto.
Qed.

(** X6: a grouped summary of the filtered set has one entry per
    distinct non-null value of the column among the rows, and the sum
    of an entry is the sum of the amounts of the rows with that value,
    as line 52 left them.  The amounts of the filtered set are within
    the exact range, so that these are the sums of the program. *)
Theorem groupby_sum_by_members reader data af pf w df w' col :
  prepare reader data af pf w = (Returns df, w') →
  col ∈ columns df →
  ∃ summary,
    groupby_sum df col w' = (Returns summary, w')
    ∧ exact_amounts (rows df)
    ∧ (∀ k, k ∈ dom summary ↔ ∃ r, r ∈ rows df ∧ group_key (r !! col) = Some k)
    ∧ (∀ k v, summary !! k = Some v → v = sum_amounts (members col k (rows df))).
Proof.
  intros Hrun Hcol.
  pose proof (prepared_amounts_exact _ _ _ _ _ _ _ Hrun) as Hexact.
  apply prepare_returns in Hrun as [Haa _]. exists (grouped col (rows df)).
  rewrite groupby_sum_run, !decide_True by done. split; [done|].
  split; [done|]. split.
  - intros k. unfold grouped. rewrite dom_grouped_from, dom_empty_L.
    split; [intros [?|?]; [set_solver|done]|by right].
  - intros k v Hv.
    pose proof (group_sum_foldl col ∅ (rows df) k) as Hsum.
    fold (grouped col (rows df)) in Hsum. unfold group_sum in Hsum.
    rewrite Hv, lookup_empty in Hsum. cbn in Hsum. lia.
Qed.

Lemma groupby_sum_by_members_witness :
  ∃ summary,
    groupby_sum scenario_A "state" fresh = (Returns summary, fresh)
    ∧ exact_amounts (rows scenario_A)
    ∧ (∀ k, k ∈ dom summary
            ↔ ∃ r, r ∈ rows scenario_A ∧ group_key (r !! "state") = Some k)
    ∧ (∀ k v, summary !! k = Some v
              → v = sum_amounts (members "state" k (rows scenario_A))).
Proof.
  apply (groupby_sum_by_members read_decimal (JList [award_DOD; award_NSF])
           [] [] fresh scenario_A fresh "state").
  - vm_compute. reflexivity.
  - apply (bool_decide_unpack _). vm_compute. exact I.
Defined.

(** X7: with a non-empty agency selection the summary by agency holds
    selected agencies only, and likewise for phases. *)
Theorem summary_within_selection reader data af pf w df w' :
  prepare reader data af pf w = (Returns df, w') →
  (af ≠ [] →
   ∃ s, groupby_sum df "agency" w' = (Returns s, w')
        ∧ ∀ k, k ∈ dom s → ∃ x, k = Str x ∧ x ∈ af)
  ∧ (pf ≠ [] →
     ∃ s, groupby_sum df "phase" w' = (Returns s, w')
          ∧ ∀ k, k ∈ dom s → ∃ x, k = Str x ∧ x ∈ pf).
Proof.
  intros Hrun.
  destruct (prepare_inv _ _ _ _ _ _ _ Hrun)
    as (items & rs & rs' & _ & _ & _ & _ & Hrows & Haa & Hag & Hph & _).
  assert (Hsel : ∀ col sel,
    col ∈ columns df →
    (∀ r, r ∈ rows df → field_in r col sel) →
    ∃ s, groupby_sum df col w' = (Returns s, w')
         ∧ ∀ k, k ∈ dom s → ∃ x, k = Str x ∧ x ∈ sel).
  { intros col sel Hcol Hin. exists (grouped col (rows df)).
    rewrite groupby_sum_run, !decide_True by done. split; [done|].
    intros k Hk. unfold grouped in Hk.
    apply dom_grouped_from in Hk as [Hk|(r & Hr & Hk)]; [set_solver|].
    specialize (Hin r Hr). unfold field_in in Hin.
    destruct (r !! col) as [[|z|x|b|f]|]; try done.
    cbn in Hk. injection Hk as <-. eauto. }
  split; intros Hne.
  - apply Hsel; [by apply Hag|]. intros r Hr. rewrite Hrows in Hr.
    apply list_elem_of_filter in Hr as [[[?|?] _] _]; done.
  - apply Hsel; [by apply Hph|]. intros r Hr. rewrite Hrows in Hr.
    apply list_elem_of_filter in Hr as [[_ [?|?]] _]; done.
Qed.

Lemma summary_within_selection_witness :
  ∃ s, groupby_sum (Frame (list_to_set detail_columns) [row award_DOD])
                   "agency" fresh = (Returns s, fresh)
       ∧ ∀ k, k ∈ dom s → ∃ x, k = Str x ∧ x ∈ ["DOD"].
Proof.
  destruct (summary_within_selection read_decimal
              (JList [award_DOD; award_NSF]) ["DOD"] [] fresh
              (Frame (list_to_set detail_columns) [row award_DOD]) fresh)
    as [H _].
  - vm_compute. reflexivity.
  - apply H. discriminate.
Defined.

Lemma set_page_same w : set_page (page w ++ []) w = w.
Proof. destruct w. unfold set_page. cbn. by rewrite app_nil_r. Qed.

(** Lines 63 to 106 touch the page only, and add neither a warning nor
    an error to it. *)
Lemma render_page df w :
  ∃ extra,
    (render df w).2 = set_page (page w ++ extra) w
    ∧ filter is_warning extra = []
    ∧ filter is_error extra = [].
Proof.
  rewrite render_run.
  destruct (decide ("award_amount" ∈ columns df)); [|exists []; by rewrite set_page_same].
  cbn zeta.
  destruct (decide ("agency" ∈ columns df)).
  2:{ eexists. split; [reflexivity|].
      destruct (decide ("state" ∈ columns df)); by split. }
  destruct (decide ("phase" ∈ columns df)).
  2:{ eexists. cbn [snd]. rewrite <- !app_assoc. split; [reflexivity|].
      destruct (decide ("state" ∈ columns df)); by split. }
  destruct (filter (λ c, c ∉ columns df) detail_columns).
  - eexists. cbn [snd]. rewrite <- !app_assoc. split; [reflexivity|].
    destruct (decide ("state" ∈ columns df)); by split.
  - eexists. cbn [snd]. rewrite <- !app_assoc. split; [reflexivity|].
    destruct (decide ("state" ∈ columns df)); by split.
Qed.

Lemma dashboard_page reader data af pf w :
  ∃ extra,
    (dashboard reader data af pf w).2 = set_page (page w ++ extra) w
    ∧ filter is_warning extra = []
    ∧ filter is_error extra = [].
Proof.
  unfold dashboard. rewrite bind_run, prepare_run.
  assert (Hw : ∃ extra, w = set_page (page w ++ extra) w
                        ∧ filter is_warning extra = []
                        ∧ filter is_error extra = []).
  { exists []. by rewrite set_page_same. }
  destruct data as [| | | |items| |]; try exact Hw.
  destruct (rows_of_json items) as [rs|]; [|exact Hw].
  cbn zeta. case_decide; [|exact Hw].
  destruct (coerce_rows reader rs) as [rs'|]; [|exact Hw].
  repeat case_decide; try exact Hw.
  apply render_page.
Qed.

(** X11: lines 51 to 106 report nothing: whatever the data and however
    they end, they add neither a warning nor an error to the page. *)
Theorem dashboard_reports_nothing reader data af pf w :
  filter is_warning (page (dashboard reader data af pf w).2)
  = filter is_warning (page w)
  ∧ filter is_error (page (dashboard reader data af pf w).2)
    = filter is_error (page w).
Proof.
  destruct (dashboard_page reader data af pf w) as (extra & -> & Hwarn & Herr).
  cbn [page set_page]. by rewrite !filter_app, Hwarn, Herr, !app_nil_r.
Qed.

(** X10: a run issues at most one request; for a name that is already
    memoised it issues none and leaves the memo as it is, whatever the
    filters and however the run ends. *)
Theorem run_issues_at_most_one_request reader net name af pf w :
  let w' := (script reader net name af pf w).2 in
  (wire w' = wire w
   ∨ wire w' = wire w ++ [(awards_url name, net (awards_url name))])
  ∧ (is_Some (cache w !! name) → wire w' = wire w ∧ cache w' = cache w).
Proof.
  intros w'. unfold w'. rewrite script_run. cbn zeta.
  set (w0 := set_page _ w).
  assert (Helse : ∀ data w1,
    wire ((if negb (truthy data)
           then st_warning "No data found. Please check the company name or try a different query."
           else dashboard reader data af pf) w1).2 = wire w1
    ∧ cache ((if negb (truthy data)
           then st_warning "No data found. Please check the company name or try a different query."
           else dashboard reader data af pf) w1).2 = cache w1).
  { intros data w1. destruct (negb (truthy data)); [done|].
    destruct (dashboard_page reader data af pf w1) as (extra & -> & _). done. }
  pose proof (cached_fetch_step net name w0) as Hstep.
  change (cache w !! name) with (cache w0 !! name).
  change (wire w) with (wire w0). change (cache w) with (cache w0).
  destruct (cache w0 !! name) as [[v shown]|] eqn:Hc.
  - rewrite Hstep. destruct (Helse v (set_page (page w0 ++ shown) w0)) as [-> ->].
    cbn. split; [by left|done].
  - split; [|by intros [? ?]].
    destruct (net (awards_url name)) as [e|r].
    + rewrite Hstep. by right.
    + destruct Hstep as (v & shown & ->).
      destruct (Helse v (World (<[name:=(v, shown)]> (cache w0))
                            (wire w0 ++ [(awards_url name, inr r)])
                            (page w0 ++ shown))) as [-> _].
      by right.
Qed.

Lemma run_issues_at_most_one_request_witness :
  wire (script read_decimal net_down "ExampleCompany" ["NSF"] []
          (script read_decimal (net_answers (JList [award_DOD; award_NSF]))
                  "ExampleCompany" [] [] fresh).2).2
  = wire (script read_decimal (net_answers (JList [award_DOD; award_NSF]))
                 "ExampleCompany" [] [] fresh).2.
Proof.
  apply (run_issues_at_most_one_request read_decimal net_down "ExampleCompany"
           ["NSF"] []
           (script read_decimal (net_answers (JList [award_DOD; award_NSF]))
                   "ExampleCompany" [] [] fresh).2).
  vm_compute. eauto.
Defined.

(** X8: when the fetch returns, from the memo or from a response of
    either shape, a non-empty list of flat records in which every one
    of the seven detail fields occurs in some record, and line 52
    stays within the exact range, the run completes for any selection
    of filters, and the last element shown is the detail table of the
    records kept, cut down to the seven columns. *)
Theorem complete_records_render reader net name af pf w items w1 rs rs' :
  cached_fetch_sbir_awards net name (header_shown w)
  = (Returns (JList items), w1) →
  items ≠ [] →
  rows_of_json items = Some rs →
  list_to_set detail_columns ⊆ (⋃ (dom <$> rs) : gset string) →
  coerce_rows reader rs = Some rs' →
  ∃ w',
    script reader net name af pf w = (Returns (), w')
    ∧ last (page w')
      = Some (St_dataframe
                (Frame (list_to_set detail_columns)
                   (filter (λ kv, kv.1 ∈ detail_columns)
                      <$> filter (keeps af pf) rs'))).
Proof.
  intros Hfetch Hitems Hrs Hcols Hco.
  set (cols := ⋃ (dom <$> rs) : gset string) in *.
  assert (Hin : ∀ c, c ∈ detail_columns → c ∈ cols).
  { intros c Hc. apply Hcols. by apply elem_of_list_to_set. }
  assert (Haa : "award_amount" ∈ cols) by (apply Hin; repeat constructor).
  assert (Hag : "agency" ∈ cols) by (apply Hin; repeat constructor).
  assert (Hph : "phase" ∈ cols) by (apply Hin; repeat constructor).
  rewrite script_run. cbn zeta. fold (header_shown w). rewrite Hfetch.
  assert (Htruthy : truthy (JList items) = true) by (by destruct items).
  rewrite Htruthy. cbn [negb].
  unfold dashboard. rewrite bind_run, prepare_run, Hrs. cbn zeta.
  fold cols. rewrite (decide_True (P := "award_amount" ∈ cols)) by done.
  rewrite Hco.
  rewrite decide_False; [|intros [_ ?]; done].
  rewrite decide_False; [|intros [_ ?]; done].
  rewrite render_run. cbn [columns rows].
  rewrite !decide_True by done. cbn zeta.
  rewrite filter_none; [|intros c Hc Hnot; by apply Hnot, Hin].
  eexists. split; [reflexivity|]. cbn [page set_page]. apply last_snoc.
Qed.

Lemma complete_records_render_witness :
  ∃ w',
    script read_decimal net_down "ExampleCompany" ["DOD"] []
      (script read_decimal
         (net_answers (JDict {[ "results" := JList [award_rated; award_NSF] ]}))
         "ExampleCompany" [] [] fresh).2
    = (Returns (), w')
    ∧ last (page w')
      = Some (St_dataframe
                (Frame (list_to_set detail_columns)
                   (filter (λ kv, kv.1 ∈ detail_columns) <$> [row award_rated]))).
Proof.
  apply (complete_records_render read_decimal net_down "ExampleCompany"
           ["DOD"] []
           (script read_decimal
              (net_answers (JDict {[ "results" := JList [award_rated; award_NSF] ]}))
              "ExampleCompany" [] [] fresh).2
           [award_rated; award_NSF]
           (cached_fetch_sbir_awards net_down "ExampleCompany"
              (header_shown
                 (script read_decimal
                    (net_answers
                       (JDict {[ "results" := JList [award_rated; award_NSF] ]}))
                    "ExampleCompany" [] [] fresh).2)).2
           [raw_row award_rated; raw_row award_NSF]
           [row award_rated; row award_NSF]).
  - vm_compute. reflexivity.
  - discriminate.
  - vm_compute. reflexivity.
  - apply (bool_decide_unpack _). vm_compute. exact I.
  - vm_compute. reflexivity.
Defined.

(** X12: the guard on the [state] column only postpones the failure.
    On a frame that has the other six detail columns but no [state],
    the map is skipped, the metrics and the two other charts are shown,
    and the run then ends in [KeyError] for [state] at the detail
    table. *)
Theorem state_guard_defers_failure df w :
  Forall (λ c, c ∈ columns df)
         ["agency"; "phase"; "program"; "award_amount"; "award_year"; "city"] →
  "state" ∉ columns df →
  render df w
  = (Raises (KeyError ["state"]),
     set_page
       (page w ++
        [St_metric "Total Awarded ($)" (Dollars (sum_amounts (rows df)));
         St_metric "Total Funded Projects" (Count (total_projects df));
         St_subheader "Award Distribution by State";
         St_subheader "Award Breakdown by Agency";
         St_plotly_chart (Bar (grouped "agency" (rows df)));
         St_subheader "Award Breakdown by Phase";
         St_plotly_chart (Pie (grouped "phase" (rows df)));
         St_subheader "Award Details"]) w).
Proof.
  intros Hcols Hstate. rewrite !Forall_cons in Hcols.
  destruct Hcols as (Hag & Hph & Hpr & Haa & Hyr & Hci & _).
  rewrite render_run.
  rewrite (decide_True (P := "award_amount" ∈ columns df)) by done. cbn zeta.
  rewrite (decide_False (P := "state" ∈ columns df)) by done.
  rewrite (decide_True (P := "agency" ∈ columns df)) by done.
  rewrite (decide_True (P := "phase" ∈ columns df)) by done.
  unfold detail_columns.
  rewrite !filter_cons.
  rewrite (decide_False (P := "agency" ∉ columns df)) by (intros H; by apply H).
  rewrite (decide_False (P := "phase" ∉ columns df)) by (intros H; by apply H).
  rewrite (decide_False (P := "program" ∉ columns df)) by (intros H; by apply H).
  rewrite (decide_False (P := "award_amount" ∉ columns df)) by (intros H; by apply H).
  rewrite (decide_False (P := "award_year" ∉ columns df)) by (intros H; by apply H).
  rewrite (decide_False (P := "city" ∉ columns df)) by (intros H; by apply H).
  rewrite (decide_True (P := "state" ∉ columns df)) by done.
  rewrite filter_nil. by rewrite <- !app_assoc.
Qed.

Lemma state_guard_defers_failure_witness :
  (render frame_without_state fresh).1 = Raises (KeyError ["state"]).
Proof.
  rewrite (state_guard_defers_failure frame_without_state fresh).
  - reflexivity.
  - apply (bool_decide_unpack _). vm_compute. exact I.
  - apply (bool_decide_unpack _). vm_compute. exact I.
Defined.
